(** * A chunked upload server: registry, processing gate, combiner, sync queue

    Shallow embedding of the upload lifecycle of the file server
    (controllers/uploadController.mjs, services/uploadTracker.mjs,
    services/chunkProcessor.mjs, services/cleanupService.mjs,
    services/imageProcessor.mjs, services/s3Service.mjs,
    config/multerConfig.mjs) and the properties of its specification.

    Conventions of the embedding:
    - a JavaScript [Map] keyed by strings is a [gmap string _], a [Set] of
      numbers a [gset];
    - a number produced by [parseInt] is either [NaN] or an integer; integers
      are mathematical (exact below 2^53);
    - the three working directories are three maps from base names to
      contents; [path.join dir name] is a lookup of [name] in [dir], which
      is what the code does for a name that is a single path component
      ([observe.component]); a property that depends on a name built from
      a field of a request has this as a hypothesis;
    - a function that may throw returns a [completion];
    - [Date.now ()] and [crypto.randomBytes] are arguments of the functions
      that call them;
    - an [async] function is run to completion; the one suspension point the
      gate protects ([await combineAndProcessChunks]) is also exposed as a
      pair begin/resume for the interleaving model. *)

From Stdlib Require Import Ascii.
From stdpp Require Import gmap strings list fin_maps pretty.

Open Scope Z_scope.

(** ** JavaScript values *)

Module Js.

(** Numbers as [parseInt] produces them: [NaN] or an integer. *)
Abbreviation number := (option Z).
Abbreviation NaN := (@None Z).

Inductive error :=
  | Error (msg : string)
  | ReferenceError (ident : string).

(** [error.message]; for an unbound identifier a host may append to this
    text. *)
Definition message (e : error) : string :=
  match e with
  | Error m => m
  | ReferenceError x => x +:+ " is not defined"
  end.

Inductive completion (A : Type) :=
  | Return (a : A)
  | Throw (e : error).
Arguments Return {A} a.
Arguments Throw {A} e.

(** White space that [parseInt] skips (code units below 256). *)
Definition isWhiteSpace (c : ascii) : bool :=
  match N_of_ascii c with
  | 9%N | 10%N | 11%N | 12%N | 13%N | 32%N | 160%N => true
  | _ => false
  end.

Fixpoint trimStart (s : string) : string :=
  match s with
  | String c s' => if isWhiteSpace c then trimStart s' else s
  | EmptyString => s
  end.

Definition digitValue (c : ascii) : option Z :=
  let n := Z.of_N (N_of_ascii c) in
  if (48 <=? n) && (n <=? 57) then Some (n - 48)
  else if (97 <=? n) && (n <=? 122) then Some (n - 87)
  else if (65 <=? n) && (n <=? 90) then Some (n - 55)
  else None.

Definition radixDigit (R : Z) (c : ascii) : option Z :=
  match digitValue c with
  | Some d => if d <? R then Some d else None
  | None => None
  end.

(** The value of the longest prefix of radix-[R] digits; [acc] is [None]
    until a digit has been read. *)
Fixpoint parseDigits (R : Z) (s : string) (acc : option Z) : option Z :=
  match s with
  | String c s' =>
      match radixDigit R c with
      | Some d => parseDigits R s' (Some (default 0 acc * R + d))
      | None => acc
      end
  | EmptyString => acc
  end.

(** [parseInt(input)] with no radix argument. *)
Definition parseInt (input : string) : number :=
  let s := trimStart input in
  let '(sign, s) :=
    match s with
    | String "-" s' => (-1, s')
    | String "+" s' => (1, s')
    | _ => (1, s)
    end in
  let '(R, s) :=
    match s with
    | String "0" (String "x" s') => (16, s')
    | String "0" (String "X" s') => (16, s')
    | _ => (10, s)
    end in
  (λ v, sign * v) <$> parseDigits R s None.


(** [String(n)], as a template literal inserts a number. *)
Definition numToString (n : number) : string :=
  match n with
  | None => "NaN"
  | Some z => pretty z
  end.

(** The value of a binding: a string, or something else (a function, an
    object, a number) whose value is not needed. *)
Inductive value :=
  | Str (s : string)
  | Other.

(** Identifier resolution: reading a name that no declaration in scope
    binds throws a [ReferenceError]. *)
Fixpoint readVar (scope : list (string * value)) (x : string) : completion value :=
  match scope with
  | [] => Throw (ReferenceError x)
  | (y, v) :: scope' => if String.eqb x y then Return v else readVar scope' x
  end.

Definition toLowerCaseChar (c : ascii) : ascii :=
  let n := N_of_ascii c in
  if ((65 <=? n) && (n <=? 90))%N then ascii_of_N (n + 32) else c.

Fixpoint toLowerCase (s : string) : string :=
  match s with
  | String c s' => String (toLowerCaseChar c) (toLowerCase s')
  | EmptyString => EmptyString
  end.

End Js.

Import Js.

(** ** The file system *)

Abbreviation bytes := (list Byte.byte).

Record FileSystem := mkFS {
  chunksDir : gmap string bytes;
  processingDir : gmap string bytes;
  uploadDir : gmap string bytes
}.

Definition emptyFS : FileSystem := mkFS ∅ ∅ ∅.

(** Base name of chunk [i] of an upload. *)
Definition chunkName (uploadId : string) (i : string) : string :=
  uploadId +:+ "-" +:+ i.

Definition tempName (uploadId : string) : string := "temp_" +:+ uploadId.

Definition fileName (uploadId : string) (i : nat) : string :=
  chunkName uploadId (numToString (Some (Z.of_nat i))).

Definition writeProcessing (name : string) (data : bytes) (fs : FileSystem) : FileSystem :=
  mkFS (chunksDir fs) (<[name := data]> (processingDir fs)) (uploadDir fs).

Definition writeUpload (name : string) (data : bytes) (fs : FileSystem) : FileSystem :=
  mkFS (chunksDir fs) (processingDir fs) (<[name := data]> (uploadDir fs)).

Definition writeChunk (name : string) (data : bytes) (fs : FileSystem) : FileSystem :=
  mkFS (<[name := data]> (chunksDir fs)) (processingDir fs) (uploadDir fs).

(** ** config/multerConfig.mjs: where the receiving facility puts a chunk *)

Module multerConfig.

(** [limits.fileSize]: 20 MiB for a chunk. *)
Definition fileSize : Z := 20 * 1024 * 1024.

(** The [filename] callback of the disk storage followed by the write of
    the chunk's bytes in the chunk directory; a chunk above the size limit
    is not kept. The file filter lets every chunk through. The file name
    is written as an entry of the chunk directory, which is where the
    facility puts a name that is a single path component. *)
Definition storage (uploadId chunkNumber : string) (payload : bytes)
    (fs : FileSystem) : FileSystem * completion unit :=
  if String.eqb uploadId "" then
    (fs, Throw (Error "Missing required upload information"))
  else if bool_decide (fileSize < Z.of_nat (length payload)) then
    (fs, Throw (Error "File too large"))
  else (writeChunk (chunkName uploadId chunkNumber) payload fs, Return tt).

End multerConfig.

(** ** services/cleanupService.mjs *)

Module cleanupService.

Record Files := mkFiles {
  temp : string;
  chunks : list string;
  final : option string
}.

Record Entry := mkEntry {
  timestamp : Z;
  files : Files;
  cleaned : bool
}.

Definition registerForCleanup (now : Z) (uploadId : string) (f : Files)
    (cleanupRegistry : gmap string Entry) : gmap string Entry :=
  <[uploadId := mkEntry now f false]> cleanupRegistry.

Definition isChunkOf (uploadId : string) (file : string) : bool :=
  String.prefix (uploadId +:+ "-") file.

(** [registry?.files?.final] as a condition: a registered, non-empty name. *)
Definition finalToDelete (registry : option Entry) : option string :=
  match registry with
  | Some e =>
      match final (files e) with
      | Some f => if String.eqb f "" then None else Some f
      | None => None
      end
  | None => None
  end.

(** [cleanupUpload(uploadId, success)]; every deletion error is swallowed.
    The timer that drops the ledger entry an hour later is [expire]. The
    final file is unlinked as an entry of the upload directory, which is
    what it is when its name is a single path component. *)
Definition cleanupUpload (uploadId : string) (success : bool)
    (fs : FileSystem) (cleanupRegistry : gmap string Entry)
    : FileSystem * gmap string Entry :=
  let registry := cleanupRegistry !! uploadId in
  let chunks' :=
    filter (λ kv : string * bytes, isChunkOf uploadId kv.1 = false) (chunksDir fs) in
  let processing' := delete (tempName uploadId) (processingDir fs) in
  let uploads' :=
    match finalToDelete registry with
    | Some f => if success then uploadDir fs else delete f (uploadDir fs)
    | None => uploadDir fs
    end in
  (mkFS chunks' processing' uploads',
   alter (λ e, mkEntry (timestamp e) (files e) true) uploadId cleanupRegistry).

Definition expire (uploadId : string) (cleanupRegistry : gmap string Entry)
    : gmap string Entry :=
  delete uploadId cleanupRegistry.

End cleanupService.

(** ** services/imageProcessor.mjs *)

Module imageProcessor.

(** What [metadata ()] resolves to. A field may be [undefined] ([None]):
    the library reports [size] for buffer and stream input only, so for
    the paths this program gives it there is none. *)
Record ImageInfo := mkInfo {
  format : option string;
  size : option Z;
  width : option Z;
  height : option Z
}.

(** An entry of [ImageConfigs] with its [quality]; the other settings of
    an entry are constants of the encoder named by [base]. *)
Record Config := mkConfig {
  base : string;
  quality : Js.number
}.

Record Options := mkOptions {
  type : string;
  optQuality : option Js.number;
  metadata : bool
}.

Record Result := mkResult {
  success : bool;
  error : option string;
  path : string;
  processingType : string;
  originalSize : option Z;
  processedSize : option Z
}.

(** The image library, a black box: reading the description of an image
    and encoding one ([withMetadata] is the Boolean). Both may throw. *)
Record Sharp := mkSharp {
  sharpMetadata : bytes → completion ImageInfo;
  sharpEncode : string → Config → bool → bytes → completion bytes
}.

Definition ImageConfigs (format : string) : option Config :=
  if String.eqb format "jpeg" then Some (mkConfig "jpeg" (Some 85))
  else if String.eqb format "png" then Some (mkConfig "png" (Some 90))
  else if String.eqb format "webp" then Some (mkConfig "webp" (Some 85))
  else None.

Definition getProcessingConfig (format : option string)
    (quality : option Js.number) : Config :=
  let baseConfig :=
    default (mkConfig "jpeg" (Some 85)) (format ≫= ImageConfigs) in
  match quality with
  | Some q => mkConfig (base baseConfig) q
  | None => baseConfig
  end.

Definition supportedFormats : list string := ["jpeg"; "jpg"; "png"; "webp"].

(** [size < 50 * 1024]: a comparison with [undefined] is false. *)
Definition isSmall (size : option Z) : bool :=
  match size with
  | Some s => s <? 50 * 1024
  | None => false
  end.

(** [size < width * height * 0.15], compared exactly; false as soon as one
    of the three is [undefined]. *)
Definition isDense (size width height : option Z) : bool :=
  match size, width, height with
  | Some s, Some w, Some h => 20 * s <? 3 * (w * h)
  | _, _, _ => false
  end.

(** [processedSize > originalSize * 0.9], compared exactly; false as soon
    as one of the two is [undefined]. *)
Definition notEffective (processedSize originalSize : option Z) : bool :=
  match processedSize, originalSize with
  | Some p, Some o => 9 * o <? 10 * p
  | _, _ => false
  end.

(** A small image, a format outside the supported ones, or a dense image
    mean no optimisation. *)
Definition shouldOptimizeImage (imageInfo : ImageInfo) : bool :=
  if isSmall (size imageInfo) then false
  else
    match format imageInfo with
    | None => false
    | Some f =>
        if negb (bool_decide (toLowerCase f ∈ supportedFormats)) then false
        else if isDense (size imageInfo) (width imageInfo) (height imageInfo)
             then false
             else true
    end.

(** [fs.promises.copyFile] from the processing directory to the upload
    directory, for an output name that is a single path component: the
    copy fails only when the input is missing. *)
Definition copyFile (input output : string) (fs : FileSystem)
    : FileSystem * completion unit :=
  match processingDir fs !! input with
  | Some data => (writeUpload output data fs, Return tt)
  | None => (fs, Throw (Error "ENOENT: no such file or directory"))
  end.

Definition encoderOf (format : option string) : option string :=
  match format with
  | Some f =>
      if String.eqb f "jpeg" || String.eqb f "jpg" then Some "jpeg"
      else if String.eqb f "png" then Some "png"
      else if String.eqb f "webp" then Some "webp"
      else None
  | None => None
  end.

(** The result of copying the input and reporting [processingType]. *)
Definition preserved (input output : string) (kind : string)
    (original processed : option Z) (fs : FileSystem)
    : FileSystem * completion Result :=
  match copyFile input output fs with
  | (fs', Return _) =>
      (fs', Return (mkResult true None output kind original processed))
  | (fs', Throw e) => (fs', Throw e)
  end.

(** The [try] block of [processImage]. *)
Definition processImageTry (sharp : Sharp) (input output : string)
    (options : Options) (fs : FileSystem) : FileSystem * completion Result :=
  match processingDir fs !! input with
  | None => (fs, Throw (Error "Input file is missing"))
  | Some data =>
      match sharpMetadata sharp data with
      | Throw e => (fs, Throw e)
      | Return imageInfo =>
          let original := size imageInfo in
          if String.eqb (type options) "preserve" then
            preserved input output "preserved" original None fs
          else
            let shouldOptimize :=
              if String.eqb (type options) "auto"
              then shouldOptimizeImage imageInfo else true in
            if negb shouldOptimize then
              preserved input output "auto-preserved" original None fs
            else
              let format := toLowerCase <$> format imageInfo in
              let config := getProcessingConfig format (optQuality options) in
              match encoderOf format with
              | None =>
                  preserved input output "unsupported-format" original None fs
              | Some encoder =>
                  match sharpEncode sharp encoder config (metadata options) data with
                  | Throw e => (fs, Throw e)
                  | Return encoded =>
                      let fs1 := writeUpload output encoded fs in
                      match sharpMetadata sharp encoded with
                      | Throw e => (fs1, Throw e)
                      | Return processedInfo =>
                          let processed := size processedInfo in
                          if notEffective processed original then
                            preserved input output "optimization-reverted"
                              original processed fs1
                          else
                            (fs1, Return (mkResult true None output "optimized"
                                            original processed))
                      end
                  end
              end
      end
  end.

(** [processImage]: a failure of the [try] block is reported in the result,
    after the input has been copied to the output. *)
Definition processImage (sharp : Sharp) (input output : string)
    (options : Options) (fs : FileSystem) : FileSystem * completion Result :=
  match processImageTry sharp input output options fs with
  | (fs', Return r) => (fs', Return r)
  | (fs', Throw e) =>
      match copyFile input output fs' with
      | (fs'', Return _) =>
          (fs'', Return (mkResult false (Some (message e)) output
                           "error-preserved" None None))
      | (fs'', Throw e') => (fs'', Throw e')
      end
  end.

End imageProcessor.

(** ** services/chunkProcessor.mjs *)

Module chunkProcessor.

(** The destination stream: what has been written to it and whether it was
    ended (flushed and closed). *)
Record WriteStream := mkStream {
  written : bytes;
  ended : bool
}.

Definition chunkPath (name : string) : string := "chunks/" +:+ name.

(** The indices of [0, totalChunks) whose access check fails. *)
Definition missing (uploadId : string) (totalChunks : nat)
    (dir : gmap string bytes) : list nat :=
  filter (λ i, dir !! fileName uploadId i = None) (seq 0 totalChunks).

(** The loop of the [then] callback: read each chunk, write it to the
    stream; a failed read ends the loop with the stream left open. *)
Fixpoint writeChunks (uploadId : string) (dir : gmap string bytes)
    (indices : list nat) (ws : WriteStream) : completion unit * WriteStream :=
  match indices with
  | [] => (Return tt, ws)
  | i :: rest =>
      match dir !! fileName uploadId i with
      | Some chunkData =>
          writeChunks uploadId dir rest (mkStream (written ws ++ chunkData) (ended ws))
      | None => (Throw (Error "ENOENT: no such file or directory"), ws)
      end
  end.

(** [combineChunks]. Each access check carries a [catch] handler that
    rejects the result and then fulfils the element, so [Promise.all] is
    fulfilled whether or not a chunk is missing and the [then] callback runs
    in both cases; a promise already rejected ignores what the callback does
    next. The result is rejected by the first failed check, here the lowest
    missing index (with one chunk missing there is no other; with several,
    the code names whichever check fails first), and is given together
    with what the loop, which runs after the rejection, has written. *)
Definition combineChunks (uploadId : string) (totalChunks : nat)
    (dir : gmap string bytes) (ws : WriteStream)
    : completion unit * WriteStream :=
  let rejected := head (missing uploadId totalChunks dir) in
  let '(r, ws') := writeChunks uploadId dir (seq 0 totalChunks) ws in
  match rejected with
  | Some i =>
      (Throw (Error ("Missing chunk file: " +:+ chunkPath (fileName uploadId i))), ws')
  | None =>
      match r with
      | Return _ => (Return tt, mkStream (written ws') true)
      | Throw e => (Throw e, ws')
      end
  end.

Record World := mkWorld {
  fs : FileSystem;
  cleanupRegistry : gmap string cleanupService.Entry
}.

Record Result := mkResult {
  filename : string;
  syncTaskId : Js.value;
  s3Key : Js.value;
  processed : imageProcessor.Result
}.

(** The bindings in scope at the [return] of [combineAndProcessChunks]:
    the imports and functions of the module, the parameters and the
    constants of the body. *)
Definition scope (uploadId originalFilename finalFilename : string)
    : list (string * Js.value) :=
  [("result", Other); ("finalPath", Other); ("finalFilename", Str finalFilename);
   ("writeStream", Other); ("tempFilePath", Other);
   ("chunksDir", Other); ("processingDir", Other); ("uploadDir", Other);
   ("uploadId", Str uploadId); ("totalChunks", Other);
   ("originalFilename", Str originalFilename); ("options", Other);
   ("combineAndProcessChunks", Other); ("combineChunks", Other);
   ("cleanupTempFiles", Other); ("handleProcessingError", Other);
   ("fs", Other); ("path", Other); ("crypto", Other);
   ("imageProcessor", Other); ("getDirectories", Other);
   ("s3Service", Other); ("cleanupService", Other)].

Definition cleanup (uploadId : string) (success : bool) (w : World) : World :=
  let '(fs', reg') :=
    cleanupService.cleanupUpload uploadId success (fs w) (cleanupRegistry w) in
  mkWorld fs' reg'.

Definition filesOf (uploadId : string) (totalChunks : nat)
    (final : option string) : cleanupService.Files :=
  cleanupService.mkFiles (tempName uploadId)
    (fileName uploadId <$> seq 0 totalChunks) final.

(** The [try] block of [combineAndProcessChunks], entered with the
    destination stream created. [random] is [crypto.randomBytes(8)] in
    hexadecimal. *)
Definition combineAndProcessTry (sharp : imageProcessor.Sharp) (now : Z)
    (random : string) (uploadId : string) (totalChunks : nat)
    (originalFilename : string) (options : imageProcessor.Options)
    (w : World) : World * completion Result :=
  let temp := tempName uploadId in
  let reg1 :=
    cleanupService.registerForCleanup now uploadId
      (filesOf uploadId totalChunks None) (cleanupRegistry w) in
  match combineChunks uploadId totalChunks (chunksDir (fs w)) (mkStream [] false) with
  | (Throw e, ws) => (mkWorld (writeProcessing temp (written ws) (fs w)) reg1, Throw e)
  | (Return _, ws) =>
      let fs1 := writeProcessing temp (written ws) (fs w) in
      let finalFilename := random +:+ "-" +:+ originalFilename in
      let reg2 :=
        cleanupService.registerForCleanup now uploadId
          (filesOf uploadId totalChunks (Some finalFilename)) reg1 in
      match imageProcessor.processImage sharp temp finalFilename options fs1 with
      | (fs2, Throw e) => (mkWorld fs2 reg2, Throw e)
      | (fs2, Return result) =>
          if negb (imageProcessor.success result) then
            (mkWorld fs2 reg2,
             Throw (Error ("Failed to process file: " +:+
                             default "undefined" (imageProcessor.error result))))
          else
            let w3 := cleanup uploadId true (mkWorld fs2 reg2) in
            let env := scope uploadId originalFilename finalFilename in
            match readVar env "syncTaskId" with
            | Throw e => (w3, Throw e)
            | Return syncTaskId =>
                match readVar env "s3Key" with
                | Throw e => (w3, Throw e)
                | Return s3Key =>
                    (w3, Return (mkResult finalFilename syncTaskId s3Key result))
                end
            end
      end
  end.

(** [combineAndProcessChunks]: the [catch] cleans up in failure mode and
    throws the error again. *)
Definition combineAndProcessChunks (sharp : imageProcessor.Sharp) (now : Z)
    (random : string) (uploadId : string) (totalChunks : nat)
    (originalFilename : string) (options : imageProcessor.Options)
    (w : World) : World * completion Result :=
  let w0 := mkWorld (writeProcessing (tempName uploadId) [] (fs w)) (cleanupRegistry w) in
  match combineAndProcessTry sharp now random uploadId totalChunks
          originalFilename options w0 with
  | (w', Return r) => (w', Return r)
  | (w', Throw e) => (cleanup uploadId false w', Throw e)
  end.

End chunkProcessor.

(** ** services/uploadTracker.mjs *)

Module uploadTracker.

Inductive UploadStatus :=
  | INITIALIZING | IN_PROGRESS | PROCESSING | COMPLETED | FAILED | CANCELLED.

Definition statusString (s : UploadStatus) : string :=
  match s with
  | INITIALIZING => "initializing"
  | IN_PROGRESS => "in_progress"
  | PROCESSING => "processing"
  | COMPLETED => "completed"
  | FAILED => "failed"
  | CANCELLED => "cancelled"
  end.

(** An entry of [chunksTracker]. The last two fields are the ones
    [updateUploadProgress] adds. *)
Record Tracking := mkTracking {
  chunks : gset Js.number;
  totalChunks : Js.number;
  filename : string;
  timestamp : Z;
  status : UploadStatus;
  error : option string;
  lastChunkReceived : option Z;
  chunksReceived : option nat
}.

(** The two module-level maps, with the files and the cleanup ledger. *)
Record Server := mkServer {
  chunksTracker : gmap string Tracking;
  processingLock : gmap string bool;
  world : chunkProcessor.World
}.

(** [processingLock.get(uploadId)] as a condition. *)
Definition held (processingLock : gmap string bool) (uploadId : string) : bool :=
  default false (processingLock !! uploadId).

(** What [getUploadStatus] returns: the object for an unknown upload, or
    the view of a session. *)
Inductive StatusView :=
  | Unknown (status : UploadStatus) (error : string)
  | View (status : UploadStatus) (chunksReceived : nat)
      (totalChunks : Js.number) (filename : string) (uploadStartTime : Z)
      (processingStatus : string).

Definition viewStatus (v : StatusView) : UploadStatus :=
  match v with
  | Unknown s _ => s
  | View s _ _ _ _ _ => s
  end.

Definition isComplete (tracking : Tracking) : bool :=
  bool_decide (totalChunks tracking = Some (Z.of_nat (size (chunks tracking)))).

Definition getUploadStatus (uploadId : string) (st : Server) : StatusView :=
  match chunksTracker st !! uploadId with
  | None => Unknown FAILED "Upload not found"
  | Some tracking =>
      let isProcessing := held (processingLock st) uploadId in
      let status :=
        if isProcessing then PROCESSING
        else if isComplete tracking then COMPLETED
        else if bool_decide (0 < size (chunks tracking))%nat then IN_PROGRESS
        else INITIALIZING in
      View status (size (chunks tracking)) (totalChunks tracking)
        (filename tracking) (timestamp tracking)
        (if isProcessing then "active" else "inactive")
  end.

(** The bindings in scope in [cleanupUploadChunks]: the declarations of the
    module, the parameters, the constants of the body, then whatever
    globals the host provides. *)
Definition scope (uploadId : string) (globals : list (string * Js.value))
    : list (string * Js.value) :=
  [("fs", Other); ("path", Other); ("chunksDir", Other);
   ("uploadId", Str uploadId); ("tracking", Other);
   ("chunksTracker", Other); ("processingLock", Other);
   ("UploadStatus", Other); ("getUploadStatus", Other);
   ("cancelUpload", Other); ("cleanupUploadChunks", Other);
   ("updateUploadProgress", Other); ("markUploadAsFailed", Other)] ++ globals.

Definition unlinkChunk (uploadId : string) (chunkNumber : Js.number)
    (dir : gmap string bytes) : gmap string bytes :=
  delete (chunkName uploadId (numToString chunkNumber)) dir.

(** [cleanupUploadChunks]: [require] is read first, the received chunks are
    unlinked, then [processingDir] is read to name the temporary file. *)
Definition cleanupUploadChunks (globals : list (string * Js.value))
    (uploadId : string) (tracking : Tracking) (fs : FileSystem)
    : FileSystem * completion unit :=
  match readVar (scope uploadId globals) "require" with
  | Throw e => (fs, Throw e)
  | Return _ =>
      let fs1 :=
        mkFS (set_fold (unlinkChunk uploadId) (chunksDir fs) (chunks tracking))
             (processingDir fs) (uploadDir fs) in
      match readVar (scope uploadId globals) "processingDir" with
      | Throw e => (fs1, Throw e)
      | Return _ =>
          (mkFS (chunksDir fs1) (delete (tempName uploadId) (processingDir fs1))
                (uploadDir fs1), Return tt)
      end
  end.

Record Cancelled := mkCancelled {
  cancelStatus : UploadStatus;
  cancelMessage : string
}.

Definition setFs (fs' : FileSystem) (st : Server) : Server :=
  mkServer (chunksTracker st) (processingLock st)
    (chunkProcessor.mkWorld fs' (chunkProcessor.cleanupRegistry (world st))).

Definition cancelUpload (globals : list (string * Js.value))
    (uploadId : string) (st : Server) : Server * completion Cancelled :=
  match chunksTracker st !! uploadId with
  | None => (st, Throw (Error "Upload not found"))
  | Some tracking =>
      if held (processingLock st) uploadId then
        (st, Throw (Error "Cannot cancel upload while processing"))
      else
        match cleanupUploadChunks globals uploadId tracking
                (chunkProcessor.fs (world st)) with
        | (fs', Return _) =>
            (mkServer (delete uploadId (chunksTracker st))
               (delete uploadId (processingLock st))
               (chunkProcessor.mkWorld fs'
                  (chunkProcessor.cleanupRegistry (world st))),
             Return (mkCancelled CANCELLED "Upload cancelled successfully"))
        | (fs', Throw e) =>
            (setFs fs' st,
             Throw (Error ("Failed to cancel upload: " +:+ message e)))
        end
  end.

Definition updateUploadProgress (uploadId : string) (lastChunk : Z)
    (received : nat) (st : Server) : Server :=
  mkServer
    (alter (λ t, mkTracking (chunks t) (totalChunks t) (filename t)
                   (timestamp t) (status t) (error t)
                   (Some lastChunk) (Some received))
       uploadId (chunksTracker st))
    (processingLock st) (world st).

Definition markUploadAsFailed (uploadId : string) (err : string)
    (st : Server) : Server :=
  mkServer
    (alter (λ t, mkTracking (chunks t) (totalChunks t) (filename t)
                   (timestamp t) FAILED (Some err)
                   (lastChunkReceived t) (chunksReceived t))
       uploadId (chunksTracker st))
    (processingLock st) (world st).

End uploadTracker.

(** ** controllers/uploadController.mjs *)

Module uploadController.

Import uploadTracker.

(** The fields of the request body. *)
Record Body := mkBody {
  uploadId : string;
  chunkNumber : string;
  totalChunks : string;
  originalFilename : string;
  preserveOriginal : option string;
  imageQuality : option string;
  processingType : option string
}.

(** A string as a condition: defined and not empty. *)
Definition truthy (s : option string) : bool :=
  match s with
  | Some s => negb (String.eqb s "")
  | None => false
  end.

Definition processingOptions (body : Body) : imageProcessor.Options :=
  imageProcessor.mkOptions
    (if bool_decide (preserveOriginal body = Some "true") then "preserve"
     else if truthy (processingType body) then default "auto" (processingType body)
     else "auto")
    (if truthy (imageQuality body)
     then Some (parseInt (default "" (imageQuality body))) else None)
    true.

(** [initializeUpload]; [random] is [crypto.randomBytes(16)] in hexadecimal. *)
Definition initializeUpload (random : string) (now : Z) (st : Server)
    : Server * string :=
  (mkServer
     (<[random := mkTracking ∅ (Some 0) "" now INITIALIZING None None None]>
        (chunksTracker st))
     (processingLock st) (world st),
   random).

Inductive Response :=
  | Progress (message : string) (chunksReceived : nat) (totalChunks : Js.number)
  | Completed (message : string) (result : chunkProcessor.Result).

(** Where the synchronous part of [handleChunkUpload] stops: with its
    answer, or at [await combineAndProcessChunks(...)] with the gate taken. *)
Inductive Suspended :=
  | Done (r : completion Response)
  | Await (uploadId : string) (totalChunks : nat) (filename : string)
      (options : imageProcessor.Options).

(** [handleChunkUpload] up to the call of the pipeline. [file] tells
    whether [req.file] is set. *)
Definition handleChunkUploadBegin (now : Z) (err : option string)
    (file : bool) (body : Body) (st : Server) : Server * Suspended :=
  match err with
  | Some m => (st, Done (Throw (Error m)))
  | None =>
      if negb file then (st, Done (Throw (Error "No file received")))
      else
        match chunksTracker st !! uploadId body with
        | None => (st, Done (Throw (Error "Invalid upload ID")))
        | Some tracking =>
            let chunkNum := parseInt (chunkNumber body) in
            let chunks' := {[chunkNum]} ∪ chunks tracking in
            let total := parseInt (totalChunks body) in
            let tracking' :=
              mkTracking chunks' total (originalFilename body)
                (timestamp tracking) (status tracking) (error tracking)
                (lastChunkReceived tracking) (chunksReceived tracking) in
            let st1 :=
              updateUploadProgress (uploadId body) now (size chunks')
                (mkServer (<[uploadId body := tracking']> (chunksTracker st))
                   (processingLock st) (world st)) in
            if isComplete tracking' then
              if negb (held (processingLock st1) (uploadId body)) then
                (mkServer (chunksTracker st1)
                   (<[uploadId body := true]> (processingLock st1)) (world st1),
                 Await (uploadId body) (size chunks') (originalFilename body)
                   (processingOptions body))
              else
                (st1, Done (Return (Progress "Chunk received, processing in progress"
                                      (size chunks') total)))
            else
              (st1, Done (Return (Progress "Chunk received successfully"
                                    (size chunks') total)))
        end
  end.

(** [handleChunkUpload] from the completion of the pipeline on: the inner
    [try]/[catch], then the outer [catch]. *)
Definition handleChunkUploadResume (uploadId : string)
    (r : completion chunkProcessor.Result) (st : Server)
    : Server * completion Response :=
  match r with
  | Return result =>
      (mkServer (delete uploadId (chunksTracker st))
         (delete uploadId (processingLock st)) (world st),
       Return (Completed "Upload completed successfully" result))
  | Throw e =>
      let st1 :=
        mkServer (chunksTracker st) (delete uploadId (processingLock st))
          (world st) in
      let st2 := markUploadAsFailed uploadId (message e) st1 in
      let st3 := markUploadAsFailed uploadId (message e) st2 in
      (st3, Throw e)
  end.

Definition setWorld (w : chunkProcessor.World) (st : Server) : Server :=
  mkServer (chunksTracker st) (processingLock st) w.

(** [handleChunkUpload] with the pipeline run to its end. [random] is the
    random part of the final file name. *)
Definition handleChunkUpload (sharp : imageProcessor.Sharp) (now : Z)
    (random : string) (err : option string) (file : bool) (body : Body)
    (st : Server) : Server * completion Response :=
  match handleChunkUploadBegin now err file body st with
  | (st1, Done r) => (st1, r)
  | (st1, Await uploadId totalChunks filename options) =>
      let '(w, r) :=
        chunkProcessor.combineAndProcessChunks sharp now random uploadId
          totalChunks filename options (world st1) in
      handleChunkUploadResume uploadId r (setWorld w st1)
  end.

(** The route [/upload/chunk]: the receiving facility stores the chunk,
    then the controller runs; a storage error reaches it as [err]. *)
Definition uploadChunk (sharp : imageProcessor.Sharp) (now : Z)
    (random : string) (body : Body) (payload : bytes) (st : Server)
    : Server * completion Response :=
  match multerConfig.storage (uploadId body) (chunkNumber body) payload
          (chunkProcessor.fs (world st)) with
  | (fs', Return _) =>
      handleChunkUpload sharp now random None true body (setFs fs' st)
  | (fs', Throw e) =>
      handleChunkUpload sharp now random (Some (message e)) false body (setFs fs' st)
  end.

End uploadController.

(** ** services/s3Service.mjs *)

Module s3Service.

Inductive S3SyncStatus := PENDING | SYNCING | COMPLETED | FAILED.

(** A task: the file to send, its key, and the metadata object, whose
    values are strings here. *)
Record FileInfo := mkFileInfo {
  filePath : string;
  s3Key : string;
  metadata : list (string * string)
}.

Record SyncInfo := mkSyncInfo {
  status : S3SyncStatus;
  startTime : Z;
  fileInfo : FileInfo;
  error : option string;
  completedTime : option Z
}.

Record PutObject := mkPut {
  Key : string;
  Body : bytes;
  ContentType : string;
  Metadata : list (string * string)
}.

(** A promise of a task identifier. *)
Inductive Promise :=
  | Waiting
  | Fulfilled (taskId : string)
  | Rejected (e : Js.error).

(** The callback [queueForSync] gives to [queue.push]: a closure over the
    task identifier and over the promise it settles. *)
Record Callback := mkCallback {
  cbTaskId : string;
  cbPromise : nat
}.

(** What the queue engine holds for a task it admitted. *)
Record Ticket := mkTicket {
  task : FileInfo;
  callback : Callback
}.

Record Service := mkService {
  syncRegistry : gmap string SyncInfo;
  queue : list Ticket;
  promises : list Promise;
  files : gmap string bytes;
  bucket : gmap string PutObject
}.

Definition printable (c : ascii) : bool :=
  let n := N_of_ascii c in ((32 <=? n) && (n <=? 126))%N.

Fixpoint stripNonPrintable (s : string) : string :=
  match s with
  | String c s' =>
      if printable c then String c (stripNonPrintable s') else stripNonPrintable s'
  | EmptyString => EmptyString
  end.

Definition sanitizeMetadata (metadata : list (string * string))
    : list (string * string) :=
  (λ kv : string * string, (kv.1, stripNonPrintable kv.2)) <$> metadata.

Fixpoint get (key : string) (o : list (string * string)) : option string :=
  match o with
  | [] => None
  | (k, v) :: o' => if String.eqb key k then Some v else get key o'
  end.

Definition truthy (s : option string) : bool :=
  match s with
  | Some s => negb (String.eqb s "")
  | None => false
  end.

(** [delete o.key] when [o.key] is truthy. *)
Definition removeIfSet (key : string) (o : list (string * string))
    : list (string * string) :=
  if truthy (get key o)
  then filter (λ kv : string * string, kv.1 ≠ key) o else o.

(** [uploadToS3]: the transfer. [send] is the storage client. *)
Definition uploadToS3 (send : PutObject → completion unit) (t : FileInfo)
    (svc : Service) : Service * completion unit :=
  match files svc !! filePath t with
  | None => (svc, Throw (Error "ENOENT: no such file or directory"))
  | Some fileContent =>
      let sanitizedMetadata := sanitizeMetadata (metadata t) in
      let contentType :=
        if truthy (get "contentType" (metadata t))
        then default "" (get "contentType" (metadata t))
        else "application/octet-stream" in
      let sent :=
        removeIfSet "deleteAfterUpload" (removeIfSet "contentType" sanitizedMetadata) in
      let command := mkPut (s3Key t) fileContent contentType sent in
      match send command with
      | Throw e => (svc, Throw e)
      | Return _ =>
          let stored := <[s3Key t := command]> (bucket svc) in
          let files' :=
            if truthy (get "deleteAfterUpload" (metadata t))
            then delete (filePath t) (files svc) else files svc in
          (mkService (syncRegistry svc) (queue svc) (promises svc) files' stored,
           Return tt)
      end
  end.

Definition updateSyncStatus (now : Z) (taskId : string) (s : S3SyncStatus)
    (err : option string) (svc : Service) : Service :=
  mkService
    (alter (λ i, mkSyncInfo s (startTime i) (fileInfo i) err (Some now))
       taskId (syncRegistry svc))
    (queue svc) (promises svc) (files svc) (bucket svc).

(** Settling a promise; a settled promise stays as it is. *)
Definition settle (p : nat) (v : Promise) (svc : Service) : Service :=
  mkService (syncRegistry svc) (queue svc)
    (match promises svc !! p with
     | Some Waiting => <[p := v]> (promises svc)
     | _ => promises svc
     end)
    (files svc) (bucket svc).

(** [queueForSync]: the identifier is made from the clock and a random
    suffix, the task is recorded and pushed with its callback; the promise
    is the result. *)
Definition newTaskId (now : Z) (random : string) : string :=
  "sync_" +:+ pretty now +:+ "_" +:+ random.

Definition queueForSync (now : Z) (random : string) (f : FileInfo)
    (svc : Service) : Service * nat :=
  let taskId := newTaskId now random in
  let p := length (promises svc) in
  (mkService
     (<[taskId := mkSyncInfo PENDING now f None None]> (syncRegistry svc))
     (queue svc ++ [mkTicket f (mkCallback taskId p)])
     (promises svc ++ [Waiting]) (files svc) (bucket svc),
   p).

(** The callback of [queue.push]. *)
Definition pushCallback (now : Z) (cb : Callback) (err : option Js.error)
    (svc : Service) : Service :=
  match err with
  | Some e =>
      settle (cbPromise cb) (Rejected e)
        (updateSyncStatus now (cbTaskId cb) FAILED (Some (message e)) svc)
  | None => settle (cbPromise cb) (Fulfilled (cbTaskId cb)) svc
  end.

Definition removeTicket (i : nat) (svc : Service) : Service :=
  mkService (syncRegistry svc) (take i (queue svc) ++ drop (S i) (queue svc))
    (promises svc) (files svc) (bucket svc).

(** The queue engine, a collaborator outside these sources, by its
    contract: it takes an admitted ticket, runs the handler on its task,
    and on the handler's outcome emits [task_finish] or [task_failed] under
    its own task identifier [engineId] and calls the callback given to
    [push]; when it decides to retry ([retry]) it emits [task_retry], which
    the service does not act on, and keeps the ticket. *)
Definition engineProcess (send : PutObject → completion unit) (now : Z)
    (engineId : string) (retry : bool) (i : nat) (svc : Service) : Service :=
  match queue svc !! i with
  | None => svc
  | Some ticket =>
      match uploadToS3 send (task ticket) svc with
      | (svc1, Return _) =>
          pushCallback now (callback ticket) None
            (updateSyncStatus now engineId COMPLETED None (removeTicket i svc1))
      | (svc1, Throw e) =>
          if retry then svc1
          else
            pushCallback now (callback ticket) (Some e)
              (updateSyncStatus now engineId FAILED (Some (message e))
                 (removeTicket i svc1))
      end
  end.

Definition getSyncStatus (taskId : string) (svc : Service)
    : completion (SyncInfo * nat) :=
  match syncRegistry svc !! taskId with
  | None => Throw (Error "Sync task not found")
  | Some syncInfo => Return (syncInfo, length (queue svc))
  end.

End s3Service.

(** ** Request handlers interleaved

    A handler runs without interruption up to an [await]. The only [await]
    of [handleChunkUpload] is the call of the pipeline, so the handlers
    interleave as follows: any handler may run while pipelines execute, and
    a pipeline that ends resumes its handler. [running] lists, with
    repetitions, the upload identifiers whose pipeline is executing. *)

Module gate.

Import uploadTracker uploadController.

Record System := mkSystem {
  server : Server;
  running : list string
}.

Definition initial (w : chunkProcessor.World) : System :=
  mkSystem (mkServer ∅ ∅ w) [].

Inductive step : System → System → Prop :=
  | step_initialize random now st run :
      step (mkSystem st run) (mkSystem (initializeUpload random now st).1 run)
  | step_answer now err file body st run st' r :
      handleChunkUploadBegin now err file body st = (st', Done r) →
      step (mkSystem st run) (mkSystem st' run)
  | step_enter now err file body st run st' u n f o :
      handleChunkUploadBegin now err file body st = (st', Await u n f o) →
      step (mkSystem st run) (mkSystem st' (u :: run))
  | step_files w st run :
      step (mkSystem st run) (mkSystem (setWorld w st) run)
  | step_exit u r st run1 run2 :
      step (mkSystem st (run1 ++ u :: run2))
           (mkSystem (handleChunkUploadResume u r st).1 (run1 ++ run2))
  | step_cancel globals u st run :
      step (mkSystem st run) (mkSystem (cancelUpload globals u st).1 run).

(** The number of pipelines executing for an upload. *)
Definition pipelines (uploadId : string) (sys : System) : nat :=
  length (filter (λ u, u = uploadId) (running sys)).

(** The gate is held exactly for the uploads whose pipeline executes, and
    no upload has two. *)
Definition consistent (sys : System) : Prop :=
  NoDup (running sys) ∧
  ∀ u, u ∈ running sys ↔ held (processingLock (server sys)) u = true.

End gate.

(** ** Sequences of submissions *)

Module submissions.

Import uploadTracker uploadController.

(** Storing the chunk of index [sub.1] with payload [sub.2]. *)
Definition receive (uploadId : string) (fs : FileSystem) (sub : nat * bytes)
    : FileSystem :=
  (multerConfig.storage uploadId (numToString (Some (Z.of_nat sub.1))) sub.2 fs).1.

Definition receiveAll (uploadId : string) (subs : list (nat * bytes))
    (fs : FileSystem) : FileSystem :=
  foldl (receive uploadId) fs subs.

(** A request on the route [/upload/chunk] with everything its handling
    reads: the clock, the random part of a final name, the body and the
    bytes of the chunk. *)
Record Request := mkRequest {
  now : Z;
  random : string;
  body : Body;
  payload : bytes
}.

Definition receiveChunk (sharp : imageProcessor.Sharp) (st : Server)
    (r : Request) : Server :=
  (uploadChunk sharp (now r) (random r) (body r) (payload r) st).1.

Definition receiveChunks (sharp : imageProcessor.Sharp) (st : Server)
    (rs : list Request) : Server :=
  foldl (receiveChunk sharp) st rs.

(** The request declares [n] chunks and carries an index of [0, n). *)
Definition withinRange (n : Z) (b : Body) : Prop :=
  parseInt (uploadController.totalChunks b) = Some n ∧
  ∃ i, parseInt (chunkNumber b) = Some i ∧ 0 ≤ i < n.



(** The received set is no larger than the declared total. *)
Definition bounded (t : Tracking) : Prop :=
  ∃ n, uploadTracker.totalChunks t = Some n ∧ Z.of_nat (size (chunks t)) ≤ n.

(** The received indices are indices of [0, n), under the total [n]; or
    nothing has been received yet. *)
Definition ranged (n : Z) (t : Tracking) : Prop :=
  (chunks t = ∅ ∧ uploadTracker.totalChunks t = Some 0) ∨
  (uploadTracker.totalChunks t = Some n ∧ 0 < n ∧
   ∀ c, c ∈ chunks t → ∃ i, c = Some i ∧ 0 ≤ i < n).

(** The identifier the caller of [queueForSync] holds: the value of the
    promise, once fulfilled. *)
Definition returnedId (p : nat) (svc : s3Service.Service) : option string :=
  match s3Service.promises svc !! p with
  | Some (s3Service.Fulfilled taskId) => Some taskId
  | _ => None
  end.

End submissions.

(** ** Concrete runs *)

Module example.

Import uploadTracker uploadController submissions.

Definition b1 : bytes := [Byte.x01].
Definition b2 : bytes := [Byte.x02].

(** An image library that describes every input as a JPEG image of one
    pixel, with no size as for an image read from a file, and encodes it
    unchanged. *)
Definition sharp : imageProcessor.Sharp :=
  imageProcessor.mkSharp
    (λ data, Return (imageProcessor.mkInfo (Some "jpeg") None (Some 1) (Some 1)))
    (λ _ _ _ data, Return data).

Definition server0 : Server :=
  mkServer ∅ ∅ (chunkProcessor.mkWorld emptyFS ∅).

Definition chunk (i n : string) : Body :=
  mkBody "u1" i n "photo.jpg" (Some "true") None None.

(** The session [u1] just created. *)
Definition created : Server := (initializeUpload "u1" 100 server0).1.

(** Chunks 1 and 0 of 2 submitted, in this order. *)
Definition afterFirst : Server * completion Response :=
  uploadChunk sharp 101 "cafe" (chunk "1" "2") b2 created.

Definition afterBoth : Server * completion Response :=
  uploadChunk sharp 102 "cafe" (chunk "0" "2") b1 afterFirst.1.

(** Chunks 0, 5 and 6 of 2 submitted. *)
Definition outOfRange : Server :=
  let st1 := (uploadChunk sharp 101 "cafe" (chunk "0" "2") b1 created).1 in
  let st2 := (uploadChunk sharp 102 "cafe" (chunk "5" "2") b2 st1).1 in
  (uploadChunk sharp 103 "cafe" (chunk "6" "2") b2 st2).1.

(** The session [u1] with chunk 0 received and stored, the gate free. *)
Definition oneChunk : Server :=
  (uploadChunk sharp 101 "cafe" (chunk "0" "2") b1 created).1.

(** The same session while its pipeline executes. *)
Definition processing : Server :=
  (handleChunkUploadBegin 102 None true (chunk "1" "2") oneChunk).1.

(** Submissions of chunks 1, 0 and 1 again, each of 2. *)
Definition inRangeRequests : list Request :=
  [mkRequest 101 "cafe" (chunk "1" "2") b2;
   mkRequest 102 "cafe" (chunk "0" "2") b1;
   mkRequest 103 "cafe" (chunk "1" "2") b2].

(** Chunks 0, 2 and 4 of 5 submitted. *)
Definition threeOfFive : Server :=
  receiveChunks sharp created
    [mkRequest 101 "cafe" (chunk "0" "5") b1;
     mkRequest 102 "cafe" (chunk "2" "5") b2;
     mkRequest 103 "cafe" (chunk "4" "5") b1].

Definition file1 : s3Service.FileInfo :=
  s3Service.mkFileInfo "uploads/cafe-photo.jpg" "cafe-photo.jpg"
    [("contentType", "image/jpeg")].

Definition service0 : s3Service.Service :=
  s3Service.mkService ∅ [] [] {["uploads/cafe-photo.jpg" := b1]} ∅.

Definition sendOk (c : s3Service.PutObject) : completion unit := Return tt.

Definition submitted : s3Service.Service * nat :=
  s3Service.queueForSync 7 "abc" file1 service0.

Definition transferred : s3Service.Service :=
  s3Service.engineProcess sendOk 8 "engine-1" false 0 submitted.1.

End example.

(** ** routes/uploadRoutes.mjs *)

Module uploadRoutes.

Import uploadTracker uploadController.

(** What a route sends: [res.json(payload)], or [res.status(code).json] of
    an object with [error] and [details]. *)
Inductive Reply (A : Type) :=
  | Json (payload : A)
  | Failed (code : nat) (error details : string).
Arguments Json {A} payload.
Arguments Failed {A} code error details.

(** [POST /upload/init] *)
Definition init (random : string) (now : Z) (st : Server)
    : Server * Reply string :=
  let '(st', uploadId) := initializeUpload random now st in (st', Json uploadId).

(** [POST /upload/chunk] *)
Definition chunk (sharp : imageProcessor.Sharp) (now : Z) (random : string)
    (body : Body) (payload : bytes) (st : Server) : Server * Reply Response :=
  match uploadChunk sharp now random body payload st with
  | (st', Return result) => (st', Json result)
  | (st', Throw e) => (st', Failed 500 "Error processing chunk" (message e))
  end.

(** [GET /upload/status/:uploadId]: the [try] sends what [getUploadStatus]
    returns, the [catch] sends 404. [getUploadStatus] has no statement
    that throws, so its completion is always a return. *)
Definition status (uploadId : string) (st : Server) : Reply StatusView :=
  match Return (getUploadStatus uploadId st) with
  | Return view => Json view
  | Throw e => Failed 404 "Upload not found" (message e)
  end.


(** [GET /upload/sync-status/:taskId] *)
Definition syncStatus (taskId : string) (svc : s3Service.Service)
    : Reply (s3Service.SyncInfo * nat) :=
  match s3Service.getSyncStatus taskId svc with
  | Return info => Json info
  | Throw e => Failed 404 "Sync task not found" (message e)
  end.

End uploadRoutes.

(** ** services/cleanupService.mjs and utils/directoryManager.mjs: the
    periodic sweeps

    A sweep reads the modification time of every file of a directory, so a
    directory is here a map from names to files with their time. A file
    whose [stat] or [unlink] fails is skipped by the sweep; no such failure
    is modelled. *)

Module sweeps.

Record File := mkFile {
  mtime : Z;
  content : bytes
}.

(** [now - mtime > maxAge] *)
Definition expired (now maxAge : Z) (f : File) : bool :=
  bool_decide (maxAge < now - mtime f).

(** [cleanOldFiles(directory, maxAge)] *)
Definition cleanOldFiles (now maxAge : Z) (directory : gmap string File)
    : gmap string File :=
  filter (λ kv : string * File, expired now maxAge kv.2 = false) directory.

(** Some ledger entry names [file] as its final file and is not cleaned. *)
Definition isRegistered (cleanupRegistry : gmap string cleanupService.Entry)
    (file : string) : bool :=
  bool_decide
    (map_Exists
       (λ _ reg, cleanupService.final (cleanupService.files reg) = Some file ∧
                 cleanupService.cleaned reg = false)
       cleanupRegistry).

(** [cleanOrphanedUploads(uploadDir, maxAge)] *)
Definition cleanOrphanedUploads (now maxAge : Z)
    (cleanupRegistry : gmap string cleanupService.Entry)
    (uploadDir : gmap string File) : gmap string File :=
  filter
    (λ kv : string * File,
       expired now maxAge kv.2 && negb (isRegistered cleanupRegistry kv.1) = false)
    uploadDir.

Record Directories := mkDirectories {
  chunks : gmap string File;
  processing : gmap string File;
  uploads : gmap string File
}.

(** 24 hours, in milliseconds. *)
Definition maxAge : Z := 24 * 60 * 60 * 1000.

(** [performPeriodicCleanup]; each of the three sweeps reads the clock. *)
Definition performPeriodicCleanup (now1 now2 now3 : Z)
    (cleanupRegistry : gmap string cleanupService.Entry) (d : Directories)
    : Directories :=
  mkDirectories
    (cleanOldFiles now1 maxAge (chunks d))
    (cleanOldFiles now2 maxAge (processing d))
    (cleanOrphanedUploads now3 maxAge cleanupRegistry (uploads d)).

(** The hourly task of [setupCleanupTasks]: files of the processing
    directory older than one hour are unlinked. *)
Definition hourlyTask (now : Z) (d : Directories) : Directories :=
  mkDirectories (chunks d) (cleanOldFiles now (60 * 60 * 1000) (processing d))
    (uploads d).

End sweeps.

(** ** config/multerConfig.mjs: [fileValidations] *)

Module fileValidations.

(** A character of the class [[a-zA-Z0-9._-]]. *)
Definition safeChar (c : ascii) : bool :=
  let n := N_of_ascii c in
  (((97 <=? n) && (n <=? 122)) || ((65 <=? n) && (n <=? 90)) ||
   ((48 <=? n) && (n <=? 57)) || (n =? 46) || (n =? 95) || (n =? 45))%N.

Fixpoint allSafe (s : string) : bool :=
  match s with
  | String c s' => safeChar c && allSafe s'
  | EmptyString => true
  end.

(** [validateFilename]: the name matches [^[a-zA-Z0-9._-]+$] and has at
    most 255 characters. *)
Definition validateFilename (filename : string) : bool :=
  negb (String.eqb filename "") && allSafe filename &&
  bool_decide (String.length filename ≤ 255)%nat.

(** [validateFileSize] and [validateChunkCount], with their defaults. *)
Definition validateFileSize (totalSize : Z) (maxSize : option Z) : bool :=
  bool_decide (totalSize ≤ default (100 * 1024 * 1024) maxSize).

Definition validateChunkCount (totalChunks : Z) (maxChunks : option Z) : bool :=
  bool_decide (totalChunks ≤ default 1000 maxChunks).

End fileValidations.

(** ** What the properties below observe *)

Module observe.

(** Every character of the string is printable ASCII. *)
Fixpoint allPrintable (s : string) : bool :=
  match s with
  | String c s' => s3Service.printable c && allPrintable s'
  | EmptyString => true
  end.

(** The character occurs in the string. *)
Fixpoint occurs (c : ascii) (s : string) : bool :=
  match s with
  | String c' s' => bool_decide (c = c') || occurs c s'
  | EmptyString => false
  end.

(** The name of the final artifact of a run of the pipeline. *)
Definition finalName (random originalFilename : string) : string :=
  random +:+ "-" +:+ originalFilename.

(** A name that is a single path component: [path.join dir name] is then
    the entry [name] of [dir]. It is not empty, not [.] or [..], holds no
    separator and no NUL character, and is at most 255 characters long. *)
Definition component (name : string) : bool :=
  negb (String.eqb name "") && negb (String.eqb name ".") &&
  negb (String.eqb name "..") &&
  negb (occurs "/" name) && negb (occurs (ascii_of_N 92) name) &&
  negb (occurs (ascii_of_N 0) name) &&
  bool_decide (String.length name ≤ 255)%nat.

(** The final file that a failure-mode cleanup of the upload would unlink,
    if there is one, is a single path component. *)
Definition plainFinal (uploadId : string)
    (cleanupRegistry : gmap string cleanupService.Entry) : bool :=
  match cleanupService.finalToDelete (cleanupRegistry !! uploadId) with
  | Some f => component f
  | None => true
  end.

End observe.

(** ** The counters of [getQueueStats] *)

Module queueStats.

Import s3Service.

#[global] Instance S3SyncStatus_eq_dec : EqDecision S3SyncStatus.
Proof. solve_decision. Defined.

Definition count (s : S3SyncStatus) (svc : Service) : nat :=
  size (filter (λ kv : string * SyncInfo, status kv.2 = s) (syncRegistry svc)).

Record Stats := mkStats {
  pendingTasks : nat;
  failedTasks : nat
}.

(** [getQueueStats]: the two counters it computes from the registry. Its
    other fields are read from the engine ([queue.length],
    [queue.running]) and from the configuration. *)
Definition getQueueStats (svc : Service) : Stats :=
  mkStats (count PENDING svc) (count FAILED svc).

End queueStats.

(** ** More concrete runs *)

Module cases.

Import uploadTracker uploadController submissions.

(** Two sessions of identifiers of the same length, each with one chunk
    stored. *)
Definition twoUploads : FileSystem :=
  mkFS {[ "aa-0" := example.b1; "ab-0" := example.b2 ]}
       {[ "temp_aa" := example.b1 ]} ∅.

(** A ledger whose entry for [aa] names a final file. *)
Definition ledger : gmap string cleanupService.Entry :=
  {[ "aa" := cleanupService.mkEntry 5
               (cleanupService.mkFiles "temp_aa" ["aa-0"] (Some "cafe-photo.jpg"))
               false ]}.

(** A file system holding that final file. *)
Definition withFinal : FileSystem :=
  mkFS ∅ ∅ {[ "cafe-photo.jpg" := example.b1 ]}.

(** An upload directory with one file written at time 0. *)
Definition oldUploads : gmap string sweeps.File :=
  {[ "cafe-photo.jpg" := sweeps.mkFile 0 example.b1 ]}.

Definition directories : sweeps.Directories :=
  sweeps.mkDirectories
    {[ "aa-0" := sweeps.mkFile 0 example.b1;
       "ab-0" := sweeps.mkFile 90000000 example.b2 ]}
    ∅ oldUploads.

(** A file system with the combined file of [u1] in the processing
    directory. *)
Definition combined : FileSystem :=
  mkFS ∅ {[ "temp_u1" := example.b1 ++ example.b2 ]} ∅.

Definition preserve : imageProcessor.Options :=
  imageProcessor.mkOptions "preserve" None true.



(** A storage client that fails. *)
Definition sendFails (c : s3Service.PutObject) : completion unit :=
  Throw (Error "socket hang up").


(** A world with both chunks of [u1] in the chunk directory. *)
Definition bothChunks : chunkProcessor.World :=
  chunkProcessor.mkWorld
    (mkFS {[ "u1-0" := example.b1; "u1-1" := example.b2 ]} ∅ ∅) ∅.

Definition withDelete : s3Service.FileInfo :=
  s3Service.mkFileInfo "uploads/cafe-photo.jpg" "cafe-photo.jpg"
    [("contentType", "image/jpeg"); ("deleteAfterUpload", "true");
     ("title", "caf" +:+ String (ascii_of_N 233) "")].

End cases.

(** * Properties *)

Ltac evaluate := vm_compute; reflexivity.

(** ** The model on small inputs *)

Section Evaluation.

Import uploadTracker uploadController.

Example parseInt_decimal : parseInt "42" = Some 42.
Proof. evaluate. Qed.

Example parseInt_prefix : parseInt "  -12px" = Some (-12).
Proof. evaluate. Qed.

Example parseInt_hexadecimal : parseInt "0x1F" = Some 31.
Proof. evaluate. Qed.

Example parseInt_not_a_number : parseInt "abc" = NaN ∧ parseInt "" = NaN.
Proof. split; evaluate. Qed.

Example fileName_decimal : fileName "u1" 12 = "u1-12".
Proof. evaluate. Qed.

(** A session just created has received 0 chunks of a total of 0. *)
Example status_created :
  getUploadStatus "u1" example.created =
    View COMPLETED 0 (Some 0) "" 100 "inactive".
Proof. evaluate. Qed.

Example status_three_of_five :
  getUploadStatus "u1" example.threeOfFive =
    View IN_PROGRESS 3 (Some 5) "photo.jpg" 100 "inactive".
Proof. evaluate. Qed.

Example status_processing :
  getUploadStatus "u1" example.processing =
    View PROCESSING 2 (Some 2) "photo.jpg" 100 "active".
Proof. evaluate. Qed.

Example first_chunk_answer :
  example.afterFirst.2 = Return (Progress "Chunk received successfully" 1 (Some 2)).
Proof. evaluate. Qed.

Example unknown_upload_rejected :
  (handleChunkUpload example.sharp 101 "cafe" None true
     (mkBody "u9" "0" "2" "photo.jpg" None None None) example.created).2
  = Throw (Error "Invalid upload ID").
Proof. evaluate. Qed.

End Evaluation.

(** ** The chunk combiner *)

Section Combiner.

Import chunkProcessor submissions.

Lemma fileName_inj uploadId i j :
  fileName uploadId i = fileName uploadId j → i = j.
Proof.
  unfold fileName, chunkName, numToString. intros H.
  apply (inj (String.app uploadId)) in H.
  apply (inj (String.app "-")) in H.
  apply (inj pretty) in H. lia.
Qed.

Lemma receive_lookup uploadId fs i p j :
  uploadId ≠ "" →
  Z.of_nat (length p) < multerConfig.fileSize →
  chunksDir (receive uploadId fs (i, p)) !! fileName uploadId j =
  if decide (i = j) then Some p else chunksDir fs !! fileName uploadId j.
Proof.
  intros Hne Hp. unfold receive, multerConfig.storage.
  destruct (String.eqb_spec uploadId "") as [Heq | _]; [done|]. simpl.
  rewrite bool_decide_eq_false_2 by lia. simpl.
  destruct (decide (i = j)) as [-> | Hij].
  - apply lookup_insert_eq.
  - apply lookup_insert_ne. intros H. by apply fileName_inj in H.
Qed.

Lemma receiveAll_other uploadId subs fs j :
  uploadId ≠ "" →
  Forall (λ sub, Z.of_nat (length sub.2) < multerConfig.fileSize) subs →
  j ∉ subs.*1 →
  chunksDir (receiveAll uploadId subs fs) !! fileName uploadId j =
  chunksDir fs !! fileName uploadId j.
Proof.
  intros Hne Hsize. revert fs.
  induction Hsize as [|[i p] subs Hp _ IH]; intros fs Hj; [done|].
  simpl in *. apply not_elem_of_cons in Hj as [Hji Hj].
  rewrite IH by done. rewrite receive_lookup by done.
  destruct (decide (i = j)); [congruence | done].
Qed.

Lemma receiveAll_stored uploadId subs fs i p :
  uploadId ≠ "" →
  Forall (λ sub, Z.of_nat (length sub.2) < multerConfig.fileSize) subs →
  NoDup subs.*1 → (i, p) ∈ subs →
  chunksDir (receiveAll uploadId subs fs) !! fileName uploadId i = Some p.
Proof.
  intros Hne Hsize. revert fs.
  induction Hsize as [|[j q] subs Hq Hsize IH]; intros fs Hnd Hin.
  - by apply elem_of_nil in Hin.
  - simpl in *. apply NoDup_cons in Hnd as [Hj Hnd].
    apply elem_of_cons in Hin as [Heq | Hin].
    + simplify_eq. rewrite receiveAll_other by done.
      rewrite receive_lookup by done. by rewrite decide_True.
    + by apply IH.
Qed.

Lemma writeChunks_all uploadId dir indices payloads ws :
  Forall2 (λ i p, dir !! fileName uploadId i = Some p) indices payloads →
  writeChunks uploadId dir indices ws =
  (Return tt, mkStream (written ws ++ concat payloads) (ended ws)).
Proof.
  intros H. revert ws. induction H as [|i p indices payloads Hi _ IH]; intros ws; simpl.
  - rewrite app_nil_r. by destruct ws.
  - rewrite Hi, IH. simpl. by rewrite <- (assoc_L (++)).
Qed.

Lemma missing_none uploadId n dir :
  Forall (λ i, is_Some (dir !! fileName uploadId i)) (seq 0 n) →
  missing uploadId n dir = [].
Proof.
  unfold missing. generalize (seq 0 n). intros l H.
  induction H as [|i l [p Hi] _ IH]; [done|].
  rewrite filter_cons_False; [done | by rewrite Hi].
Qed.


(** The combiner on a chunk directory that [receiveAll] has filled, that is
    with every chunk stored under the decimal text of its index: for a
    permutation of the payloads paired with their indices, every payload
    below the size limit of a chunk, it ends the destination stream with
    the payloads concatenated in ascending index order. *)
Theorem combined_bytes_ascending uploadId fs payloads subs :
  uploadId ≠ "" →
  Forall (λ p, Z.of_nat (length p) < multerConfig.fileSize) payloads →
  subs ≡ₚ zip (seq 0 (length payloads)) payloads →
  combineChunks uploadId (length payloads)
    (chunksDir (receiveAll uploadId subs fs)) (mkStream [] false)
  = (Return tt, mkStream (concat payloads) true).
Proof.
  intros Hne Hsize Hperm.
  assert (Hsubs : Forall (λ sub, Z.of_nat (length sub.2) < multerConfig.fileSize) subs).
  { rewrite Hperm. apply Forall_forall. intros [i p] Hin.
    apply elem_of_zip_r in Hin. simpl.
    by apply (proj1 (Forall_forall _ _) Hsize). }
  assert (Hnd : NoDup subs.*1).
  { rewrite Hperm, fst_zip by (rewrite length_seq; lia). apply NoDup_seq. }
  assert (Hall : Forall2 (λ i p, chunksDir (receiveAll uploadId subs fs)
                                   !! fileName uploadId i = Some p)
                   (seq 0 (length payloads)) payloads).
  { apply Forall2_same_length_lookup. split; [by rewrite length_seq|].
    intros k i p Hi Hp. apply receiveAll_stored; [done..|].
    rewrite Hperm. apply list_elem_of_lookup. exists k.
    rewrite lookup_zip_with, Hi. simpl. by rewrite Hp. }
  unfold combineChunks.
  rewrite (writeChunks_all _ _ _ payloads _ Hall), missing_none; [done|].
  eapply Forall2_Forall_l; [exact Hall|]. apply Forall_forall; eauto.
Qed.

Lemma combined_bytes_ascending_witness :
  combineChunks "u1" 2
    (chunksDir (receiveAll "u1" [(1%nat, example.b2); (0%nat, example.b1)] emptyFS))
    (mkStream [] false)
  = (Return tt, mkStream [Byte.x01; Byte.x02] true).
Proof.
  apply (combined_bytes_ascending "u1" emptyFS [example.b1; example.b2]
           [(1%nat, example.b2); (0%nat, example.b1)]).
  - discriminate.
  - repeat apply Forall_cons_2; [| |apply Forall_nil_2]; vm_compute; reflexivity.
  - simpl. apply perm_swap.
Defined.

(** C4. With chunk 0 of 2 present and chunk 1 missing, the combiner fails
    with the missing-chunk error, but the bytes of chunk 0 have been
    written to the destination and the stream is left open. *)
Theorem missing_chunk_partial_write :
  combineChunks "u1" 2 {[ "u1-0" := example.b1 ]} (mkStream [] false)
  = (Throw (Error "Missing chunk file: chunks/u1-1"),
     mkStream example.b1 false).
Proof. vm_compute. reflexivity. Qed.


End Combiner.

(** ** The pipeline and the registry *)

Section Pipeline.

Import chunkProcessor uploadTracker uploadController.

(** Neither [syncTaskId] nor [s3Key] is bound where the pipeline builds its
    result, so the pipeline never returns one. *)
Lemma combineAndProcessChunks_throws sharp now random uploadId totalChunks
    originalFilename options w :
  ∃ e, (combineAndProcessChunks sharp now random uploadId totalChunks
          originalFilename options w).2 = Throw e.
Proof.
  unfold combineAndProcessChunks, combineAndProcessTry.
  destruct (combineChunks _ _ _ _) as [[[]|e] ws]; simpl; [|by eexists].
  destruct (imageProcessor.processImage _ _ _ _ _) as [fs2 [result|e]]; simpl;
    [|by eexists].
  destruct (imageProcessor.success result); simpl; by eexists.
Qed.

(** A session is still registered after any chunk submission. *)
Lemma handleChunkUpload_keeps_session sharp now random err file body st u :
  is_Some (chunksTracker st !! u) →
  is_Some (chunksTracker
             (handleChunkUpload sharp now random err file body st).1 !! u).
Proof.
  intros Hu. unfold handleChunkUpload, handleChunkUploadBegin.
  destruct err as [m|]; [done|].
  destruct file; simpl; [|done].
  destruct (chunksTracker st !! uploadId body) as [t|] eqn:Ht; [|done].
  assert (∀ t' l, is_Some (alter (λ t0, l t0) (uploadId body)
                    (<[uploadId body := t']> (chunksTracker st)) !! u)) as Hins.
  { intros t' l. destruct (decide (uploadId body = u)) as [->|Hne].
    - rewrite lookup_alter_eq, lookup_insert_eq. by eexists.
    - by rewrite lookup_alter_ne, lookup_insert_ne. }
  destruct (isComplete _); [|apply Hins].
  destruct (held _ _); simpl; [apply Hins|].
  match goal with
  | |- context [combineAndProcessChunks ?a ?b ?c ?d ?e ?f ?g ?h] =>
      destruct (combineAndProcessChunks_throws a b c d e f g h) as [e' He'];
      destruct (combineAndProcessChunks a b c d e f g h) as [w' r']
  end.
  simpl in He'. subst r'. simpl.
  destruct (decide (uploadId body = u)) as [->|Hne].
  - rewrite !lookup_alter_eq, lookup_insert_eq. by eexists.
  - by rewrite !lookup_alter_ne, lookup_insert_ne.
Qed.

(** [handleChunkUpload] therefore never answers that an upload completed. *)
Lemma handleChunkUpload_never_completes sharp now random err file body st m r :
  (handleChunkUpload sharp now random err file body st).2 ≠ Return (Completed m r).
Proof.
  unfold handleChunkUpload.
  destruct (handleChunkUploadBegin now err file body st) as [st1 [c|u n f o]] eqn:Hb.
  - simpl. intros ->. unfold handleChunkUploadBegin in Hb.
    destruct err; [done|]. destruct file; simpl in Hb; [|done].
    destruct (chunksTracker st !! uploadId body); [|done].
    destruct (isComplete _); [destruct (negb _)|]; done.
  - destruct (combineAndProcessChunks_throws sharp now random u n f o (world st1))
      as [e He].
    destruct (combineAndProcessChunks _ _ _ _ _ _ _ _) as [w c]. simpl in He.
    by subst c.
Qed.

(** C1. Chunks 1 and 0 of 2 are submitted with [preserveOriginal]; all
    chunks are present and the transform reports success. The submission of
    the last chunk throws [ReferenceError: syncTaskId is not defined]: no
    artifact metadata and no sync task identifier are returned, the session
    stays in the registry, marked failed, and the final artifact has been
    deleted by the failure-mode cleanup. *)
Theorem completed_upload_throws :
  example.afterBoth.2 = Throw (ReferenceError "syncTaskId") ∧
  (status <$> chunksTracker example.afterBoth.1 !! "u1") = Some FAILED ∧
  (error <$> chunksTracker example.afterBoth.1 !! "u1") =
    Some (Some "syncTaskId is not defined") ∧
  processingLock example.afterBoth.1 !! "u1" = None ∧
  uploadDir (fs (world example.afterBoth.1)) = ∅.
Proof. vm_compute. repeat split; reflexivity. Qed.

(** A registered session whose gate is free cannot be cancelled as long as
    [processingDir] is not bound: [cancelUpload] throws and the session and
    the lock table stay as they are. *)
Lemma cancelUpload_throws globals uploadId st tracking :
  chunksTracker st !! uploadId = Some tracking →
  held (processingLock st) uploadId = false →
  readVar (scope uploadId globals) "processingDir" = Throw (ReferenceError "processingDir") →
  ∃ fs' e,
    cancelUpload globals uploadId st =
      (setFs fs' st, Throw (Error ("Failed to cancel upload: " +:+ message e))).
Proof.
  intros Ht Hfree Hdir. unfold cancelUpload, cleanupUploadChunks.
  rewrite Ht, Hfree, Hdir.
  destruct (readVar _ "require"); by do 2 eexists.
Qed.

(** C5. The session [u1] is registered with chunk 0 received and stored,
    and its gate is free. [cancelUpload] does not succeed: it throws
    [Failed to cancel upload: require is not defined], deletes no file and
    leaves the session entry in the registry. *)
Theorem cancel_free_session_throws :
  cancelUpload [] "u1" example.oneChunk =
    (example.oneChunk,
     Throw (Error "Failed to cancel upload: require is not defined")) ∧
  is_Some (chunksTracker example.oneChunk !! "u1") ∧
  held (processingLock example.oneChunk) "u1" = false ∧
  chunksDir (fs (world example.oneChunk)) !! "u1-0" = Some example.b1.
Proof.
  split; [|split; [|split]].
  - unfold cancelUpload, cleanupUploadChunks.
    replace (chunksTracker example.oneChunk !! "u1")
      with (Some (mkTracking {[Some 0]} (Some 2) "photo.jpg" 100 INITIALIZING
                    None (Some 101) (Some 1%nat))) by (vm_compute; reflexivity).
    replace (held (processingLock example.oneChunk) "u1") with false
      by (vm_compute; reflexivity).
    simpl. reflexivity.
  - vm_compute. by eexists.
  - vm_compute. reflexivity.
  - vm_compute. reflexivity.
Qed.

(** C6. For every session whose gate is held, [cancelUpload] fails with
    the conflict error [Cannot cancel upload while processing] and leaves
    the registry, the lock table, the files and the ledger unchanged. *)
Theorem cancel_while_processing_conflict globals uploadId st :
  is_Some (chunksTracker st !! uploadId) →
  held (processingLock st) uploadId = true →
  cancelUpload globals uploadId st =
    (st, Throw (Error "Cannot cancel upload while processing")).
Proof.
  intros [t Ht] Hheld. unfold cancelUpload. by rewrite Ht, Hheld.
Qed.

Lemma cancel_while_processing_conflict_witness :
  cancelUpload [] "u1" example.processing =
    (example.processing, Throw (Error "Cannot cancel upload while processing")).
Proof.
  apply (cancel_while_processing_conflict [] "u1" example.processing).
  - vm_compute. by eexists.
  - vm_compute. reflexivity.
Defined.

(** C7. For an upload identifier that is not in the registry the status
    operation does not fail: [getUploadStatus] returns, as its normal
    result, the object with status [failed] and error [Upload not found],
    so the status route sends it as a success payload and never takes its
    [catch], the branch that answers 404 with [Upload not found]. *)
Theorem status_unknown_not_found uploadId st :
  chunksTracker st !! uploadId = None →
  getUploadStatus uploadId st = Unknown FAILED "Upload not found" ∧
  uploadRoutes.status uploadId st
    = uploadRoutes.Json (Unknown FAILED "Upload not found") ∧
  ∀ code error details,
    uploadRoutes.status uploadId st ≠ uploadRoutes.Failed code error details.
Proof.
  intros H. unfold uploadRoutes.status, getUploadStatus. rewrite H.
  split; [done|]. split; [done|]. discriminate.
Qed.

Lemma status_unknown_not_found_witness :
  getUploadStatus "u2" example.created = Unknown FAILED "Upload not found" ∧
  uploadRoutes.status "u2" example.created
    = uploadRoutes.Json (Unknown FAILED "Upload not found") ∧
  ∀ code error details,
    uploadRoutes.status "u2" example.created
      ≠ uploadRoutes.Failed code error details.
Proof.
  apply (status_unknown_not_found "u2" example.created).
  vm_compute. reflexivity.
Defined.

End Pipeline.

(** ** The processing gate *)

Section Gate.

Import chunkProcessor uploadTracker uploadController gate.

Lemma held_insert lock u v :
  held (<[u := true]> lock) v = if decide (u = v) then true else held lock v.
Proof.
  unfold held. destruct (decide (u = v)) as [->|Hne].
  - by rewrite lookup_insert_eq.
  - by rewrite lookup_insert_ne.
Qed.

Lemma held_delete lock u v :
  held (delete u lock) v = if decide (u = v) then false else held lock v.
Proof.
  unfold held. destruct (decide (u = v)) as [->|Hne].
  - by rewrite lookup_delete_eq.
  - by rewrite lookup_delete_ne.
Qed.

(** What the synchronous part of a submission does to the two tables when
    it reaches the registry. *)
Lemma begin_registered now body st tracking :
  chunksTracker st !! uploadId body = Some tracking →
  let chunks' := {[parseInt (chunkNumber body)]} ∪ chunks tracking in
  let total := parseInt (uploadController.totalChunks body) in
  let tracking' :=
    mkTracking chunks' total (originalFilename body) (timestamp tracking)
      (status tracking) (error tracking) (Some now) (Some (size chunks')) in
  let tracker' := <[uploadId body := tracking']> (chunksTracker st) in
  handleChunkUploadBegin now None true body st =
    if isComplete tracking' then
      if held (processingLock st) (uploadId body) then
        (mkServer tracker' (processingLock st) (world st),
         Done (Return (Progress "Chunk received, processing in progress"
                         (size chunks') total)))
      else
        (mkServer tracker' (<[uploadId body := true]> (processingLock st)) (world st),
         Await (uploadId body) (size chunks') (originalFilename body)
           (processingOptions body))
    else
      (mkServer tracker' (processingLock st) (world st),
       Done (Return (Progress "Chunk received successfully" (size chunks') total))).
Proof.
  intros Ht. simpl. unfold handleChunkUploadBegin, updateUploadProgress. simpl.
  rewrite Ht. simpl.
  rewrite alter_insert_eq. unfold isComplete. simpl.
  destruct (bool_decide _); [|done].
  by destruct (held _ _).
Qed.

Lemma begin_cases now err file body st st' s :
  handleChunkUploadBegin now err file body st = (st', s) →
  (st' = st ∧ ∃ e, s = Done (Throw e)) ∨
  (err = None ∧ file = true ∧ is_Some (chunksTracker st !! uploadId body)).
Proof.
  unfold handleChunkUploadBegin. intros H.
  destruct err; [left; simplify_eq; eauto|].
  destruct file; simpl in H; [|left; simplify_eq; eauto].
  destruct (chunksTracker st !! uploadId body) eqn:Ht; [|left; simplify_eq; eauto].
  right. eauto.
Qed.

Lemma begin_done_lock now err file body st st' r :
  handleChunkUploadBegin now err file body st = (st', Done r) →
  processingLock st' = processingLock st.
Proof.
  intros H. destruct (begin_cases _ _ _ _ _ _ _ H) as [[-> _]|(-> & -> & [t Ht])]; [done|].
  rewrite (begin_registered _ _ _ _ Ht) in H.
  destruct (isComplete _); [destruct (held _ _)|]; by simplify_eq.
Qed.

Lemma begin_await_lock now err file body st st' u n f o :
  handleChunkUploadBegin now err file body st = (st', Await u n f o) →
  held (processingLock st) u = false ∧
  processingLock st' = <[u := true]> (processingLock st).
Proof.
  intros H. destruct (begin_cases _ _ _ _ _ _ _ H) as [[_ [e ?]]|(-> & -> & [t Ht])]; [done|].
  rewrite (begin_registered _ _ _ _ Ht) in H.
  destruct (isComplete _); [destruct (held _ _) eqn:Hh|]; by simplify_eq.
Qed.

Lemma resume_lock u r st :
  processingLock (handleChunkUploadResume u r st).1 = delete u (processingLock st).
Proof. by destruct r. Qed.

Lemma cancel_lock globals u st :
  processingLock (cancelUpload globals u st).1 = processingLock st ∨
  (held (processingLock st) u = false ∧
   processingLock (cancelUpload globals u st).1 = delete u (processingLock st)).
Proof.
  unfold cancelUpload. destruct (chunksTracker st !! u); [|by left].
  destruct (held _ _) eqn:Hh; [by left|].
  destruct (cleanupUploadChunks _ _ _ _) as [fs' [[]|e]]; simpl; [by right | by left].
Qed.

Lemma step_consistent sys sys' : consistent sys → step sys sys' → consistent sys'.
Proof.
  intros [Hnd Hrun] Hstep. unfold consistent.
  destruct Hstep; cbn [server running fst] in *.
  - done.
  - split; [done|]. intros v.
    match goal with H : handleChunkUploadBegin _ _ _ _ _ = _ |- _ =>
      apply begin_done_lock in H as Hlock end.
    rewrite Hlock. apply Hrun.
  - match goal with H : handleChunkUploadBegin _ _ _ _ _ = _ |- _ =>
      apply begin_await_lock in H as [Hfree Hlock] end.
    split.
    + apply NoDup_cons. split; [|done]. rewrite Hrun. congruence.
    + intros v. rewrite Hlock, held_insert, elem_of_cons.
      destruct (decide (u = v)) as [->|Hne]; [split; auto|].
      rewrite <- Hrun. split; [by intros [?|?] | by right].
  - done.
  - split.
    + apply NoDup_app in Hnd as (H1 & H12 & H2). apply NoDup_cons in H2 as [? ?].
      apply NoDup_app. repeat split; [done| |done].
      intros x Hx Hx2. apply (H12 x Hx). by apply elem_of_cons; right.
    + intros v. rewrite resume_lock, held_delete.
      apply NoDup_app in Hnd as (H1 & H12 & H2). apply NoDup_cons in H2 as [Hu2 ?].
      destruct (decide (u = v)) as [->|Hne].
      * split; [|done]. rewrite elem_of_app. intros [Hv|Hv]; [|done].
        exfalso. apply (H12 v Hv). by apply elem_of_cons; left.
      * rewrite <- Hrun, !elem_of_app, elem_of_cons.
        split; [intros [?|?]; auto | intros [?|[?|?]]; auto; congruence].
  - split; [done|]. intros v.
    destruct (cancel_lock globals u st) as [-> | [Hfree ->]]; [apply Hrun|].
    rewrite held_delete. destruct (decide (u = v)) as [->|Hne]; [|apply Hrun].
    rewrite Hrun. split; congruence.
Qed.

Lemma reachable_consistent w sys : rtc step (initial w) sys → consistent sys.
Proof.
  intros H. revert sys H. apply rtc_ind_r.
  - split; [apply NoDup_nil_2|]. intros u. split; [by intros ?%elem_of_nil|done].
  - intros y z _ Hstep IH. by eapply step_consistent.
Qed.

Lemma filter_eq_notin (l : list string) u :
  u ∉ l → filter (λ v, v = u) l = [].
Proof.
  induction l as [|x l IH]; [done|]. intros [Hx Hl]%not_elem_of_cons.
  rewrite filter_cons_False by congruence. auto.
Qed.

Lemma NoDup_filter_eq_length (l : list string) u :
  NoDup l → (length (filter (λ v, v = u) l) ≤ 1)%nat.
Proof.
  induction 1 as [|x l Hx _ IH]; [simpl; lia|].
  destruct (decide (x = u)) as [->|Hne].
  - rewrite filter_cons_True by done. simpl.
    rewrite filter_eq_notin by done. simpl. lia.
  - by rewrite filter_cons_False.
Qed.

(** What a handler run to its end does to the gates: nothing that lasts. *)
Lemma handleChunkUpload_lock sharp now random err file body st v :
  held (processingLock (handleChunkUpload sharp now random err file body st).1) v
    = held (processingLock st) v.
Proof.
  unfold handleChunkUpload.
  destruct (handleChunkUploadBegin now err file body st) as [st1 [r|u n f o]] eqn:Hb.
  - simpl. by rewrite (begin_done_lock _ _ _ _ _ _ _ Hb).
  - apply begin_await_lock in Hb as [Hfree Hlock].
    destruct (combineAndProcessChunks _ _ _ _ _ _ _ _) as [w r].
    rewrite resume_lock. simpl. rewrite Hlock, held_delete, held_insert.
    destruct (decide (u = v)) as [->|Hne]; [by rewrite Hfree|done].
Qed.

(** C2. In every state the interleaved handlers can reach, at most one
    pipeline executes for an upload identifier; a submission that completes
    the set while the gate is held is answered [Chunk received, processing
    in progress] with no pipeline run (files, ledger and lock table as they
    were); whether the pipeline returns or throws, the handler that
    resumes removes the gate entry; a submission that completes the set
    while the gate is free takes the gate before the pipeline starts, and
    when its handler has run to its end the gate entry is removed; and
    every handler run to its end leaves the gate of every upload held or
    free as it found it. *)
Theorem single_pipeline_per_upload :
  (∀ w sys uploadId,
     rtc step (initial w) sys → (pipelines uploadId sys ≤ 1)%nat) ∧
  (∀ sharp now random body st tracking,
     chunksTracker st !! uploadId body = Some tracking →
     parseInt (uploadController.totalChunks body) =
       Some (Z.of_nat (size ({[parseInt (chunkNumber body)]} ∪ chunks tracking))) →
     held (processingLock st) (uploadId body) = true →
     ∃ st',
       handleChunkUpload sharp now random None true body st =
         (st', Return (Progress "Chunk received, processing in progress"
                         (size ({[parseInt (chunkNumber body)]} ∪ chunks tracking))
                         (parseInt (uploadController.totalChunks body)))) ∧
       processingLock st' = processingLock st ∧ world st' = world st) ∧
  (∀ uploadId r st,
     processingLock (handleChunkUploadResume uploadId r st).1 !! uploadId = None) ∧
  (∀ sharp now random body st tracking,
     chunksTracker st !! uploadId body = Some tracking →
     parseInt (uploadController.totalChunks body) =
       Some (Z.of_nat (size ({[parseInt (chunkNumber body)]} ∪ chunks tracking))) →
     held (processingLock st) (uploadId body) = false →
     held (processingLock (handleChunkUploadBegin now None true body st).1)
       (uploadId body) = true ∧
     processingLock (handleChunkUpload sharp now random None true body st).1
       !! uploadId body = None) ∧
  (∀ sharp now random err file body st v,
     held (processingLock (handleChunkUpload sharp now random err file body st).1) v
       = held (processingLock st) v).
Proof.
  split; [|split; [|split; [|split]]].
  - intros w sys u Hreach. apply NoDup_filter_eq_length.
    by apply (reachable_consistent w).
  - intros sharp now random body st t Ht Htotal Hheld.
    unfold handleChunkUpload. rewrite (begin_registered _ _ _ _ Ht).
    unfold isComplete. simpl. rewrite bool_decide_eq_true_2 by done.
    rewrite Hheld. by eexists.
  - intros u r st. rewrite resume_lock. apply lookup_delete_eq.
  - intros sharp now random body st t Ht Htotal Hfree.
    unfold handleChunkUpload. rewrite (begin_registered _ _ _ _ Ht).
    unfold isComplete. simpl. rewrite bool_decide_eq_true_2 by done.
    rewrite Hfree. cbn [fst processingLock]. split.
    + unfold held. by rewrite lookup_insert_eq.
    + destruct (combineAndProcessChunks _ _ _ _ _ _ _ _) as [w r].
      rewrite resume_lock. apply lookup_delete_eq.
  - intros. apply handleChunkUpload_lock.
Qed.

End Gate.

Section GateWitness.

Import chunkProcessor uploadTracker uploadController gate.

Lemma processing_reachable :
  rtc step (initial (world example.oneChunk))
    (mkSystem example.processing ["u1"]).
Proof.
  set (st1 := (initializeUpload "u1" 100
                 (mkServer ∅ ∅ (world example.oneChunk))).1).
  set (st2 := (handleChunkUploadBegin 101 None true (example.chunk "0" "2") st1).1).
  eapply rtc_l; [apply (step_initialize "u1" 100)|]. fold st1.
  eapply rtc_l.
  { apply (step_answer 101 None true (example.chunk "0" "2") st1 [] st2
             (Return (Progress "Chunk received successfully" 1 (Some 2)))).
    vm_compute. reflexivity. }
  eapply rtc_l.
  { apply (step_enter 102 None true (example.chunk "1" "2") st2 []
             example.processing "u1" 2 "photo.jpg"
             (imageProcessor.mkOptions "preserve" None true)).
    vm_compute. reflexivity. }
  apply rtc_refl.
Qed.

Lemma single_pipeline_per_upload_witness :
  (pipelines "u1" (mkSystem example.processing ["u1"]) ≤ 1)%nat ∧
  (∃ st',
     handleChunkUpload example.sharp 103 "cafe" None true
       (example.chunk "1" "2") example.processing =
       (st', Return (Progress "Chunk received, processing in progress" 2 (Some 2))) ∧
     processingLock st' = processingLock example.processing ∧
     world st' = world example.processing) ∧
  processingLock
    (handleChunkUploadResume "u1" (Throw (Error "Missing chunk file"))
       example.processing).1 !! "u1" = None ∧
  (held (processingLock
           (handleChunkUploadBegin 102 None true (example.chunk "1" "2")
              example.oneChunk).1) "u1" = true ∧
   processingLock
     (handleChunkUpload example.sharp 102 "cafe" None true
        (example.chunk "1" "2") example.oneChunk).1 !! "u1" = None) ∧
  held (processingLock
          (handleChunkUpload example.sharp 102 "cafe" None true
             (example.chunk "1" "2") example.oneChunk).1) "u1"
    = held (processingLock example.oneChunk) "u1".
Proof.
  destruct single_pipeline_per_upload as (Hone & Hack & Hrelease & Hfree & Hsame).
  split; [|split; [|split; [|split]]].
  - apply (Hone (world example.oneChunk)). apply processing_reachable.
  - assert (chunksTracker example.processing !! "u1" =
            Some (mkTracking {[Some 0; Some 1]} (Some 2) "photo.jpg" 100
                    INITIALIZING None (Some 102) (Some 2%nat))) as Ht
      by (vm_compute; reflexivity).
    assert (parseInt (uploadController.totalChunks (example.chunk "1" "2")) =
            Some (Z.of_nat (size ({[parseInt (chunkNumber (example.chunk "1" "2"))]}
                                  ∪ ({[Some 0; Some 1]} : gset Js.number)))))
      as Htotal by (vm_compute; reflexivity).
    assert (held (processingLock example.processing) "u1" = true) as Hheld
      by (vm_compute; reflexivity).
    exact (Hack example.sharp 103 "cafe" (example.chunk "1" "2")
             example.processing _ Ht Htotal Hheld).
  - apply Hrelease.
  - assert (chunksTracker example.oneChunk !! "u1" =
            Some (mkTracking {[Some 0]} (Some 2) "photo.jpg" 100
                    INITIALIZING None (Some 101) (Some 1%nat))) as Ht
      by (vm_compute; reflexivity).
    assert (parseInt (uploadController.totalChunks (example.chunk "1" "2")) =
            Some (Z.of_nat (size ({[parseInt (chunkNumber (example.chunk "1" "2"))]}
                                  ∪ ({[Some 0]} : gset Js.number)))))
      as Htotal by (vm_compute; reflexivity).
    assert (held (processingLock example.oneChunk) "u1" = false) as Hheld
      by (vm_compute; reflexivity).
    exact (Hfree example.sharp 102 "cafe" (example.chunk "1" "2")
             example.oneChunk _ Ht Htotal Hheld).
  - apply Hsame.
Defined.

End GateWitness.

(** ** The status of a session *)

Section Status.

Import chunkProcessor uploadTracker uploadController.

Lemma status_complete_free uploadId st t :
  chunksTracker st !! uploadId = Some t →
  isComplete t = true →
  held (processingLock st) uploadId = false →
  viewStatus (getUploadStatus uploadId st) = COMPLETED.
Proof.
  intros Ht Hc Hfree. unfold getUploadStatus. by rewrite Ht, Hfree, Hc.
Qed.

(** C10. For every live session whose received-chunk set is as large as
    [totalChunks] while the gate is not held, the status operation reports
    [completed]; in particular, when a pipeline that was entered throws,
    the session is retained with its stored status [failed], its gate entry
    is deleted, and the status operation reports [completed]. *)
Theorem complete_free_session_reports_completed :
  (∀ uploadId st t,
     chunksTracker st !! uploadId = Some t →
     uploadTracker.totalChunks t = Some (Z.of_nat (size (chunks t))) →
     held (processingLock st) uploadId = false →
     viewStatus (getUploadStatus uploadId st) = COMPLETED) ∧
  (∀ now err file body st st1 u n f o w e,
     handleChunkUploadBegin now err file body st = (st1, Await u n f o) →
     let st' := (handleChunkUploadResume u (Throw e) (setWorld w st1)).1 in
     (status <$> chunksTracker st' !! u) = Some FAILED ∧
     processingLock st' !! u = None ∧
     viewStatus (getUploadStatus u st') = COMPLETED).
Proof.
  split.
  - intros u st t Ht Hc Hfree. eapply status_complete_free; [done| |done].
    unfold isComplete. by apply bool_decide_eq_true_2.
  - intros now err file body st st1 u n f o w e H.
    destruct (begin_cases _ _ _ _ _ _ _ H) as [[_ [e' ?]]|(-> & -> & [t Ht])]; [done|].
    rewrite (begin_registered _ _ _ _ Ht) in H.
    destruct (isComplete _) eqn:Hc; [|done].
    destruct (held _ _); [done|]. simplify_eq. simpl.
    unfold markUploadAsFailed. simpl.
    rewrite !lookup_alter_eq, lookup_insert_eq. simpl.
    split; [done|]. split; [apply lookup_delete_eq|].
    eapply status_complete_free.
    + simpl. by rewrite !lookup_alter_eq, lookup_insert_eq.
    + exact Hc.
    + unfold held. simpl. by rewrite lookup_delete_eq.
Qed.

Lemma complete_free_session_reports_completed_witness :
  viewStatus (getUploadStatus "u1" example.afterBoth.1) = COMPLETED.
Proof.
  apply (proj1 complete_free_session_reports_completed "u1" example.afterBoth.1
           (mkTracking {[Some 0; Some 1]} (Some 2) "photo.jpg" 100 FAILED
              (Some "syncTaskId is not defined") (Some 102) (Some 2%nat))).
  - vm_compute. reflexivity.
  - vm_compute. reflexivity.
  - vm_compute. reflexivity.
Defined.

End Status.

(** ** The received set and the declared total *)

Section Bound.

Import chunkProcessor uploadTracker uploadController submissions.

(** What a submission does to the entry of an upload: nothing that touches
    its set or its total, or, for the upload it names, one more index and
    the total it declares. *)
Lemma handleChunkUpload_entry sharp now random err file body st u t' :
  chunksTracker (handleChunkUpload sharp now random err file body st).1 !! u
    = Some t' →
  (∃ t, chunksTracker st !! u = Some t ∧ chunks t' = chunks t ∧
        uploadTracker.totalChunks t' = uploadTracker.totalChunks t) ∨
  (u = uploadId body ∧
   ∃ t, chunksTracker st !! u = Some t ∧
        chunks t' = {[parseInt (chunkNumber body)]} ∪ chunks t ∧
        uploadTracker.totalChunks t' = parseInt (uploadController.totalChunks body)).
Proof.
  unfold handleChunkUpload.
  destruct (handleChunkUploadBegin now err file body st) as [st1 s] eqn:Hb.
  destruct (begin_cases _ _ _ _ _ _ _ Hb) as [[-> [e ->]]|(-> & -> & [t Ht])].
  { intros H. left. eauto. }
  rewrite (begin_registered _ _ _ _ Ht) in Hb.
  assert (∀ (t1 : Tracking) (m : gmap string Tracking),
            chunks t1 = {[parseInt (chunkNumber body)]} ∪ chunks t →
            uploadTracker.totalChunks t1 =
              parseInt (uploadController.totalChunks body) →
            m !! uploadId body = Some t1 →
            (∀ v, v ≠ uploadId body → m !! v = chunksTracker st !! v) →
            m !! u = Some t' →
            (∃ t, chunksTracker st !! u = Some t ∧ chunks t' = chunks t ∧
                  uploadTracker.totalChunks t' = uploadTracker.totalChunks t) ∨
            (u = uploadId body ∧
             ∃ t, chunksTracker st !! u = Some t ∧
                  chunks t' = {[parseInt (chunkNumber body)]} ∪ chunks t ∧
                  uploadTracker.totalChunks t' =
                    parseInt (uploadController.totalChunks body))) as Hgen.
  { intros t1 m Hc Htot Hm Hother Hu.
    destruct (decide (u = uploadId body)) as [->|Hne].
    - right. split; [done|]. exists t. rewrite Hm in Hu. by simplify_eq.
    - left. exists t'. by rewrite <- Hother. }
  destruct (isComplete _); [destruct (held _ _)|]; simplify_eq; simpl.
  - eapply Hgen; [| |apply lookup_insert_eq|]; [done..|].
    intros v Hv. by rewrite lookup_insert_ne.
  - destruct (combineAndProcessChunks _ _ _ _ _ _ _ _) as [w [result|e]]; simpl.
    + rewrite lookup_delete. destruct (decide (uploadId body = u)); [done|].
      rewrite lookup_insert_ne by done. intros H. left. eauto.
    + unfold markUploadAsFailed. simpl.
      eapply Hgen; [| |by rewrite !lookup_alter_eq, lookup_insert_eq|]; [done..|].
      intros v Hv. by rewrite !lookup_alter_ne, lookup_insert_ne.
  - eapply Hgen; [| |apply lookup_insert_eq|]; [done..|].
    intros v Hv. by rewrite lookup_insert_ne.
Qed.

Lemma ranged_bounded n t : ranged n t → bounded t.
Proof.
  intros [[Hc Ht]|(Ht & Hn & Hc)].
  - exists 0. split; [done|]. rewrite Hc, size_empty. lia.
  - exists n. split; [done|].
    assert (chunks t ⊆ list_to_set (Some <$> seqZ 0 n)) as Hsub.
    { intros c Hin. destruct (Hc c Hin) as (i & -> & Hi).
      apply elem_of_list_to_set, list_elem_of_fmap. exists i. split; [done|].
      apply elem_of_seqZ. lia. }
    apply subseteq_size in Hsub.
    rewrite size_list_to_set in Hsub.
    + rewrite length_fmap, length_seqZ in Hsub. lia.
    + apply NoDup_fmap; [apply _ | apply NoDup_seqZ].
Qed.

Lemma receiveChunk_ranged sharp n u st r :
  (uploadId (body r) = u → withinRange n (body r)) →
  (∀ t, chunksTracker st !! u = Some t → ranged n t) →
  ∀ t, chunksTracker (receiveChunk sharp st r) !! u = Some t → ranged n t.
Proof.
  intros Hr Hst t' Ht'. unfold receiveChunk, uploadChunk in Ht'.
  assert (∀ fs' err file,
            chunksTracker (handleChunkUpload sharp (now r) (random r) err file
                             (body r) (setFs fs' st)).1 !! u = Some t' →
            ranged n t') as Hgen.
  { intros fs' err file H.
    apply handleChunkUpload_entry in H
      as [(t & Ht & Hc & Htot)|(Hu & t & Ht & Hc & Htot)]; simpl in Ht.
    - destruct (Hst t Ht) as [[? ?]|(? & ? & ?)]; [left|right]; by rewrite Hc, Htot.
    - destruct (Hr (eq_sym Hu)) as (Hn & i & Hi & Hrange).
      right. rewrite Htot, Hc, Hi. split; [done|]. split; [lia|].
      intros c [->%elem_of_singleton|Hin]%elem_of_union; [eauto|].
      destruct (Hst t Ht) as [[He ?]|(? & ? & Hold)]; [|by apply Hold].
      rewrite He in Hin. by apply elem_of_empty in Hin. }
  destruct (multerConfig.storage _ _ _ _) as [fs' [[]|e]]; by eapply Hgen.
Qed.

Lemma receiveChunks_ranged sharp n u rs :
  Forall (λ r, uploadId (body r) = u → withinRange n (body r)) rs →
  ∀ st, (∀ t, chunksTracker st !! u = Some t → ranged n t) →
  ∀ t, chunksTracker (receiveChunks sharp st rs) !! u = Some t → ranged n t.
Proof.
  induction 1 as [|r rs Hr _ IH]; intros st Hst; [done|].
  simpl. apply IH. by apply receiveChunk_ranged.
Qed.

(** C8, as the code has it. For every new session and every sequence of
    submissions in which those for this session all declare the same
    number [n] of chunks and carry an index of [0, n), the received set is
    never larger than the total the session records. *)
Theorem received_bounded_in_range sharp n u now st0 rs :
  Forall (λ r, uploadId (body r) = u → withinRange n (body r)) rs →
  ∀ t, chunksTracker (receiveChunks sharp (initializeUpload u now st0).1 rs) !! u
         = Some t →
       bounded t.
Proof.
  intros Hrs t Ht. apply (ranged_bounded n).
  eapply receiveChunks_ranged; [exact Hrs| |exact Ht].
  simpl. intros t0. rewrite lookup_insert_eq. intros ?. simplify_eq. by left.
Qed.

End Bound.

Section BoundExamples.

Import chunkProcessor uploadTracker uploadController submissions.

Lemma received_bounded_in_range_witness :
  bounded (mkTracking {[Some 0; Some 1]} (Some 2) "photo.jpg" 100 FAILED
             (Some "Missing chunk file: chunks/u1-0") (Some 103) (Some 2%nat)).
Proof.
  apply (received_bounded_in_range example.sharp 2 "u1" 100 example.server0
           example.inRangeRequests).
  - repeat apply Forall_cons_2; [| | |apply Forall_nil_2]; intros _;
      (split; [vm_compute; reflexivity|]).
    + exists 1. split; [vm_compute; reflexivity | lia].
    + exists 0. split; [vm_compute; reflexivity | lia].
    + exists 1. split; [vm_compute; reflexivity | lia].
  - vm_compute. reflexivity.
Defined.

(** C8, as stated, fails: chunks 0, 5 and 6 are submitted for a session,
    each declaring 2 chunks; the second submission completes the set, the
    pipeline fails on the missing chunk 1 and the session is retained; the
    third makes the received set of size 3 under a total of 2. *)
Lemma received_exceeds_total :
  ∃ t, chunksTracker example.outOfRange !! "u1" = Some t ∧
       uploadTracker.totalChunks t = Some 2 ∧
       size (chunks t) = 3%nat ∧
       ¬ bounded t.
Proof.
  eexists. split; [vm_compute; reflexivity|].
  split; [reflexivity|]. split; [vm_compute; reflexivity|].
  intros (n & Hn & Hsize). simpl in Hn. simplify_eq.
  vm_compute in Hsize. by apply Hsize.
Qed.

End BoundExamples.

(** ** The sync queue *)

Section SyncQueue.

Import s3Service submissions.

Lemma uploadToS3_promises send t svc :
  promises (uploadToS3 send t svc).1 = promises svc ∧
  queue (uploadToS3 send t svc).1 = queue svc ∧
  syncRegistry (uploadToS3 send t svc).1 = syncRegistry svc.
Proof.
  unfold uploadToS3. destruct (files svc !! filePath t); [|done].
  by destruct (send _).
Qed.

(** C9. [queueForSync] does not give the identifier to its caller at once.
    For every submitted file it records the task with status [pending]
    under its new identifier and hands it to the queue engine with its
    callback, without running the transfer (files and bucket are as
    before); but the promise it returns is still waiting then. The
    identifier reaches the caller only when the engine calls back: after
    the transfer has succeeded the promise is fulfilled with the
    identifier; after a failure that is not retried it is rejected and the
    task is recorded as [failed]. *)
Theorem submit_records_pending now random f svc :
  let taskId := newTaskId now random in
  let svc1 := (queueForSync now random f svc).1 in
  let p := (queueForSync now random f svc).2 in
  let i := length (queue svc) in
  syncRegistry svc1 !! taskId = Some (mkSyncInfo PENDING now f None None) ∧
  queue svc1 !! i = Some (mkTicket f (mkCallback taskId p)) ∧
  promises svc1 !! p = Some Waiting ∧
  returnedId p svc1 = None ∧
  files svc1 = files svc ∧ bucket svc1 = bucket svc ∧
  (∀ send now' engineId retry,
     (uploadToS3 send f svc1).2 = Return tt →
     returnedId p (engineProcess send now' engineId retry i svc1) = Some taskId) ∧
  (∀ send now' engineId e,
     (uploadToS3 send f svc1).2 = Throw e →
     promises (engineProcess send now' engineId false i svc1) !! p
       = Some (Rejected e) ∧
     (status <$> syncRegistry (engineProcess send now' engineId false i svc1) !! taskId)
       = Some FAILED).
Proof.
  intros taskId svc1 p i.
  assert (queue svc1 !! i = Some (mkTicket f (mkCallback taskId p))) as Hq.
  { unfold svc1, i. simpl. by rewrite lookup_app_r, Nat.sub_diag. }
  assert (promises svc1 !! p = Some Waiting) as Hp.
  { unfold svc1, p. simpl. by rewrite lookup_app_r, Nat.sub_diag. }
  split; [apply lookup_insert_eq|]. split; [done|]. split; [done|].
  split; [unfold returnedId; by rewrite Hp|]. split; [done|]. split; [done|].
  split.
  - intros send now' engineId retry Hok. unfold engineProcess. rewrite Hq. simpl.
    destruct (uploadToS3_promises send f svc1) as (Hpr & _ & _).
    destruct (uploadToS3 send f svc1) as [svc2 r]. simpl in *. subst r.
    unfold returnedId, pushCallback, settle. simpl. rewrite Hpr, Hp.
    rewrite list_lookup_insert_eq; [done|]. by eapply lookup_lt_Some.
  - intros send now' engineId e Hfail. unfold engineProcess. rewrite Hq. simpl.
    destruct (uploadToS3_promises send f svc1) as (Hpr & _ & Hreg).
    destruct (uploadToS3 send f svc1) as [svc2 r]. simpl in *. subst r.
    unfold pushCallback, settle. simpl. rewrite Hpr, Hp. split.
    + rewrite list_lookup_insert_eq; [done|]. by eapply lookup_lt_Some.
    + rewrite lookup_alter_eq. rewrite Hreg.
      destruct (decide (engineId = taskId)) as [->|Hne].
      * rewrite lookup_alter_eq. unfold svc1. simpl. by rewrite lookup_insert_eq.
      * rewrite lookup_alter_ne by done. unfold svc1. simpl.
        by rewrite lookup_insert_eq.
Qed.

Lemma submit_records_pending_witness :
  returnedId example.submitted.2 example.submitted.1 = None ∧
  returnedId example.submitted.2 example.transferred = Some "sync_7_abc".
Proof.
  destruct (submit_records_pending 7 "abc" example.file1 example.service0)
    as (_ & _ & _ & Hnone & _ & _ & Hok & _).
  split; [exact Hnone|].
  apply (Hok example.sendOk 8 "engine-1" false). vm_compute. reflexivity.
Defined.

(** C9 on a run: when [queueForSync] has returned, the caller holds no
    identifier and nothing has been transferred; the identifier is there
    once the engine has run the transfer, with the object in the bucket. *)
Lemma identifier_after_transfer :
  returnedId example.submitted.2 example.submitted.1 = None ∧
  bucket example.submitted.1 = ∅ ∧
  (status <$> syncRegistry example.submitted.1 !! "sync_7_abc") = Some PENDING ∧
  returnedId example.submitted.2 example.transferred = Some "sync_7_abc" ∧
  is_Some (bucket example.transferred !! "cafe-photo.jpg").
Proof.
  split; [vm_compute; reflexivity|]. split; [vm_compute; reflexivity|].
  split; [vm_compute; reflexivity|]. split; [vm_compute; reflexivity|].
  vm_compute. by eexists.
Qed.

End SyncQueue.

(** ** Decimal text *)

Section Decimal.








End Decimal.

(** ** From the submissions to the combiner *)

Section Flow.

Import chunkProcessor uploadTracker uploadController submissions.





End Flow.

Section EndToEnd.

Import chunkProcessor uploadTracker uploadController submissions.




End EndToEnd.

(** * Further properties of the code *)

(** ** The cleanup of an upload *)

Section Cleanup.

Import cleanupService.

Lemma app_cons (x : ascii) (a b : string) :
  String x a +:+ b = String x (a +:+ b).
Proof. reflexivity. Qed.

Lemma prefix_app (a b : string) : String.prefix a (a +:+ b) = true.
Proof.
  induction a as [|c a IH]; [by destruct b|].
  rewrite app_cons. simpl. by destruct (ascii_dec c c).
Qed.

Lemma app_assoc_string (a b c : string) : (a +:+ b) +:+ c = a +:+ (b +:+ c).
Proof. induction a as [|x a IH]; [done|]. rewrite !app_cons. by f_equal. Qed.

Lemma isChunkOf_own uploadId c : isChunkOf uploadId (chunkName uploadId c) = true.
Proof.
  unfold isChunkOf, chunkName. rewrite <- app_assoc_string. apply prefix_app.
Qed.

Lemma isChunkOf_other u v c :
  String.length v = String.length u → v ≠ u →
  isChunkOf u (chunkName v c) = false.
Proof.
  unfold isChunkOf, chunkName. revert v.
  induction u as [|x u IH]; intros [|y v] Hlen Hne; try done.
  rewrite !app_cons. simpl in *.
  destruct (ascii_dec x y) as [->|]; [|done].
  apply IH; [lia | congruence].
Qed.

(** X1. After [cleanupUpload], whatever its mode and the ledger, no file
    named [uploadId-...] is left in the chunk directory, whatever follows
    the dash, and the temporary combined file of the upload is gone. *)
Theorem cleanup_removes_upload_files uploadId success fs cleanupRegistry :
  (∀ c, chunksDir (cleanupUpload uploadId success fs cleanupRegistry).1
          !! chunkName uploadId c = None) ∧
  processingDir (cleanupUpload uploadId success fs cleanupRegistry).1
    !! tempName uploadId = None.
Proof.
  unfold cleanupUpload. simpl. split.
  - intros c. apply map_lookup_filter_None. right. intros x _. simpl.
    by rewrite isChunkOf_own.
  - apply lookup_delete_eq.
Qed.

(** X2. When the final file that the ledger names for the upload, if any,
    is a single path component, the cleanup of the upload leaves in place
    the chunk files of every other upload whose identifier has the same
    length, and every file of the processing directory but the temporary
    file of the upload. *)
Theorem cleanup_spares_other_uploads u v c name success fs cleanupRegistry :
  observe.plainFinal u cleanupRegistry = true →
  String.length v = String.length u → v ≠ u → name ≠ tempName u →
  chunksDir (cleanupUpload u success fs cleanupRegistry).1 !! chunkName v c
    = chunksDir fs !! chunkName v c ∧
  processingDir (cleanupUpload u success fs cleanupRegistry).1 !! name
    = processingDir fs !! name.
Proof.
  intros _ Hlen Hne Hname. unfold cleanupUpload. simpl. split.
  - destruct (chunksDir fs !! chunkName v c) as [data|] eqn:Hv.
    + apply map_lookup_filter_Some. split; [done|]. simpl.
      by apply isChunkOf_other.
    + apply map_lookup_filter_None. by left.
  - by apply lookup_delete_ne.
Qed.

Lemma cleanup_spares_other_uploads_witness :
  chunksDir (cleanupUpload "aa" false cases.twoUploads cases.ledger).1
    !! chunkName "ab" "0" = chunksDir cases.twoUploads !! chunkName "ab" "0" ∧
  processingDir (cleanupUpload "aa" false cases.twoUploads cases.ledger).1
    !! "temp_ab" = processingDir cases.twoUploads !! "temp_ab".
Proof.
  apply (cleanup_spares_other_uploads "aa" "ab" "0" "temp_ab" false
           cases.twoUploads cases.ledger).
  - vm_compute. reflexivity.
  - reflexivity.
  - discriminate.
  - discriminate.
Defined.

(** X3. With a final file registered for the upload whose name is a single
    path component, the cleanup after a failure deletes exactly that file
    from the upload directory, and the cleanup after a success leaves the
    upload directory as it is. *)
Theorem cleanup_final_file uploadId fs cleanupRegistry e f :
  cleanupRegistry !! uploadId = Some e →
  final (files e) = Some f → observe.component f = true →
  uploadDir (cleanupUpload uploadId false fs cleanupRegistry).1
    = delete f (uploadDir fs) ∧
  uploadDir (cleanupUpload uploadId true fs cleanupRegistry).1 = uploadDir fs.
Proof.
  intros He Hf Hne. unfold cleanupUpload, finalToDelete. simpl.
  rewrite He, Hf. destruct (String.eqb_spec f "") as [->|]; [|done].
  discriminate Hne.
Qed.

Lemma cleanup_final_file_witness :
  uploadDir (cleanupUpload "aa" false cases.withFinal cases.ledger).1
    = delete "cafe-photo.jpg" (uploadDir cases.withFinal) ∧
  uploadDir (cleanupUpload "aa" true cases.withFinal cases.ledger).1
    = uploadDir cases.withFinal.
Proof.
  apply (cleanup_final_file "aa" cases.withFinal cases.ledger
           (mkEntry 5 (mkFiles "temp_aa" ["aa-0"] (Some "cafe-photo.jpg")) false)
           "cafe-photo.jpg").
  - vm_compute. reflexivity.
  - reflexivity.
  - vm_compute. reflexivity.
Defined.

(** X4. [cleanupUpload] only deletes, and a second cleanup of the same
    upload in the same mode changes nothing more: neither the files nor
    the ledger. *)
Theorem cleanup_idempotent uploadId success fs cleanupRegistry :
  let once := cleanupUpload uploadId success fs cleanupRegistry in
  cleanupUpload uploadId success once.1 once.2 = once ∧
  chunksDir once.1 ⊆ chunksDir fs ∧
  processingDir once.1 ⊆ processingDir fs ∧
  uploadDir once.1 ⊆ uploadDir fs.
Proof.
  simpl. split; [|split; [|split]].
  - unfold cleanupUpload. simpl. f_equal; [f_equal|].
    + apply map_eq. intros name. apply option_eq. intros data.
      rewrite !map_lookup_filter_Some. tauto.
    + apply map_eq. intros name.
      destruct (decide (name = tempName uploadId)) as [->|Hne].
      * by rewrite !lookup_delete_eq.
      * by rewrite !lookup_delete_ne.
    + rewrite lookup_alter_eq.
      destruct (cleanupRegistry !! uploadId) as [e|] eqn:He; simpl; [|done].
      unfold finalToDelete. simpl.
      destruct (final (files e)) as [f|]; [|done].
      destruct (String.eqb f ""); [done|]. destruct success; [done|].
      apply map_eq. intros name. destruct (decide (name = f)) as [->|Hne].
      * by rewrite !lookup_delete_eq.
      * by rewrite !lookup_delete_ne.
    + apply map_eq. intros v. destruct (decide (v = uploadId)) as [->|Hne].
      * rewrite !lookup_alter_eq. by destruct (cleanupRegistry !! uploadId).
      * by rewrite !lookup_alter_ne.
  - unfold cleanupUpload. simpl. apply map_filter_subseteq.
  - unfold cleanupUpload. simpl. apply delete_subseteq.
  - unfold cleanupUpload. simpl.
    destruct (finalToDelete _); [destruct success|]; try done.
    apply delete_subseteq.
Qed.

End Cleanup.

(** ** The transform *)

Section Transform.

Import imageProcessor.

Lemma writeUpload_twice output a b fs :
  writeUpload output a (writeUpload output b fs) = writeUpload output a fs.
Proof. unfold writeUpload. simpl. by rewrite insert_insert_eq. Qed.

Lemma copyFile_present input output data fs :
  processingDir fs !! input = Some data →
  copyFile input output fs = (writeUpload output data fs, Return tt).
Proof. intros H. unfold copyFile. by rewrite H. Qed.

(** What the [try] block does when the input is there: it returns with the
    input copied or with an encoding, which is of at most nine tenths of
    the size when both sizes are reported, or it throws having written
    nothing or the encoding. *)
Lemma processImageTry_present sharp input output options fs data :
  processingDir fs !! input = Some data →
  (∃ r, processImageTry sharp input output options fs
          = (writeUpload output data fs, Return r) ∧
        success r = true ∧ path r = output ∧ processingType r ≠ "optimized") ∨
  (∃ r encoded,
     processImageTry sharp input output options fs
       = (writeUpload output encoded fs, Return r) ∧
     success r = true ∧ path r = output ∧ processingType r = "optimized" ∧
     (∀ o p, originalSize r = Some o → processedSize r = Some p →
             10 * p ≤ 9 * o) ∧
     type options ≠ "preserve") ∨
  (∃ e, processImageTry sharp input output options fs = (fs, Throw e)) ∨
  (∃ e encoded,
     processImageTry sharp input output options fs
       = (writeUpload output encoded fs, Throw e) ∧ type options ≠ "preserve").
Proof.
  intros Hin. unfold processImageTry, preserved. rewrite Hin.
  destruct (sharpMetadata sharp data) as [info|e]; [|right; right; left; eauto].
  destruct (String.eqb_spec (type options) "preserve") as [Hp|Hp].
  { rewrite (copyFile_present _ _ data) by done. left. eexists.
    split; [done|]. by simpl. }
  destruct (negb _).
  { rewrite (copyFile_present _ _ data) by done. left. eexists.
    split; [done|]. by simpl. }
  destruct (encoderOf _) as [encoder|].
  2:{ rewrite (copyFile_present _ _ data) by done. left. eexists.
      split; [done|]. by simpl. }
  destruct (sharpEncode _ _ _ _ _) as [encoded|e]; [|right; right; left; eauto].
  destruct (sharpMetadata sharp encoded) as [pinfo|e]; [|right; right; right; eauto].
  destruct (notEffective (size pinfo) (size info)) eqn:Heff.
  - rewrite (copyFile_present _ _ data) by done. rewrite writeUpload_twice.
    left. eexists. split; [done|]. by simpl.
  - right. left. do 2 eexists. split; [done|]. simpl.
    do 3 (split; [done|]). split; [|done].
    intros o p Ho Hq. rewrite Ho, Hq in Heff. simpl in Heff.
    apply Z.ltb_ge in Heff. lia.
Qed.






(** X7. When the input file does not exist, [processImage] throws (the
    copy of its [catch] fails too) and writes nothing. *)
Theorem processImage_missing_input sharp input output options fs :
  processingDir fs !! input = None →
  processImage sharp input output options fs
    = (fs, Throw (Error "ENOENT: no such file or directory")).
Proof.
  intros Hin. unfold processImage, processImageTry. rewrite Hin.
  unfold copyFile. by rewrite Hin.
Qed.

Lemma processImage_missing_input_witness :
  processImage example.sharp "temp_u2" "cafe-photo.jpg" cases.preserve
    cases.combined
  = (cases.combined, Throw (Error "ENOENT: no such file or directory")).
Proof.
  apply (processImage_missing_input example.sharp "temp_u2" "cafe-photo.jpg"
           cases.preserve cases.combined).
  vm_compute. reflexivity.
Defined.

End Transform.

(** ** The pipeline and the files *)

Section PipelineFiles.

Import chunkProcessor observe.

Lemma missing_nil_present uploadId n dir :
  missing uploadId n dir = [] →
  Forall (λ i, is_Some (dir !! fileName uploadId i)) (seq 0 n).
Proof.
  unfold missing. generalize (seq 0 n). intros l.
  induction l as [|i l IH]; intros H; [constructor|].
  destruct (dir !! fileName uploadId i) as [data|] eqn:Hi.
  - rewrite filter_cons_False in H by (by rewrite Hi).
    constructor; [by rewrite Hi | by apply IH].
  - rewrite filter_cons_True in H by done. discriminate.
Qed.

Lemma writeChunks_present uploadId dir l ws :
  Forall (λ i, is_Some (dir !! fileName uploadId i)) l →
  ∃ ws', writeChunks uploadId dir l ws = (Return tt, ws').
Proof.
  intros H. revert ws. induction H as [|i l [data Hi] _ IH]; intros ws; simpl.
  - eauto.
  - rewrite Hi. apply IH.
Qed.

Lemma combineChunks_outcome uploadId n dir ws :
  (missing uploadId n dir = [] ∧
   ∃ ws', combineChunks uploadId n dir ws = (Return tt, ws')) ∨
  (missing uploadId n dir ≠ [] ∧
   ∃ e ws', combineChunks uploadId n dir ws = (Throw e, ws')).
Proof.
  unfold combineChunks.
  destruct (missing uploadId n dir) as [|i l] eqn:Hm.
  - left. split; [done|].
    destruct (writeChunks_present uploadId dir (seq 0 n) ws) as [ws' ->];
      [by apply missing_nil_present|]. simpl. eauto.
  - right. split; [done|]. simpl. destruct (writeChunks _ _ _ _). eauto.
Qed.

Lemma finalName_not_empty random name : String.eqb (finalName random name) "" = false.
Proof. by destruct random. Qed.

(** The file system after the failure-mode cleanup of a world whose ledger
    names a final file for the upload. *)
Lemma cleanup_false_files uploadId fs' reg e f :
  reg !! uploadId = Some e →
  cleanupService.final (cleanupService.files e) = Some f →
  String.eqb f "" = false →
  fs (cleanup uploadId false (mkWorld fs' reg)) =
    mkFS (filter (λ kv : string * bytes,
                    cleanupService.isChunkOf uploadId kv.1 = false) (chunksDir fs'))
         (delete (tempName uploadId) (processingDir fs'))
         (delete f (uploadDir fs')).
Proof.
  intros He Hf Hne. unfold cleanup, cleanupService.cleanupUpload,
    cleanupService.finalToDelete. simpl. by rewrite He, Hf, Hne.
Qed.

Lemma cleanup_eq uploadId success w :
  cleanup uploadId success w =
    mkWorld
      (cleanupService.cleanupUpload uploadId success (fs w) (cleanupRegistry w)).1
      (cleanupService.cleanupUpload uploadId success (fs w) (cleanupRegistry w)).2.
Proof. unfold cleanup. by destruct (cleanupService.cleanupUpload _ _ _ _). Qed.

Lemma processImage_dirs sharp input output options fs0 :
  let fs' := (imageProcessor.processImage sharp input output options fs0).1 in
  chunksDir fs' = chunksDir fs0 ∧ processingDir fs' = processingDir fs0 ∧
  delete output (uploadDir fs') = delete output (uploadDir fs0).
Proof.
  simpl. unfold imageProcessor.processImage.
  destruct (processingDir fs0 !! input) as [data|] eqn:Hin.
  - destruct (processImageTry_present sharp input output options fs0 data Hin)
      as [(r & -> & _)|[(r & enc & -> & _)|[(e & ->)|(e & enc & -> & _)]]];
      rewrite ?(copyFile_present _ _ data) by done; simpl;
      by rewrite ?delete_insert_eq.
  - unfold imageProcessor.processImageTry.
    rewrite Hin. unfold imageProcessor.copyFile. by rewrite Hin.
Qed.

(** X8. When the names of the temporary file and of the final artifact are
    single path components, a run of the pipeline, whatever its outcome,
    leaves no chunk file of the upload and no temporary file; all other
    files of the chunk and processing directories are as before, and the
    upload directory is as before or lacks the file that has the name of
    the final artifact. When no chunk was missing, the final artifact
    itself is gone at the end. *)
Theorem pipeline_leaves_no_files sharp now random uploadId totalChunks
    originalFilename options w :
  component (tempName uploadId) = true →
  component (finalName random originalFilename) = true →
  let w' := (combineAndProcessChunks sharp now random uploadId totalChunks
               originalFilename options w).1 in
  chunksDir (fs w') =
    filter (λ kv : string * bytes, cleanupService.isChunkOf uploadId kv.1 = false)
      (chunksDir (fs w)) ∧
  processingDir (fs w') = delete (tempName uploadId) (processingDir (fs w)) ∧
  (uploadDir (fs w') = uploadDir (fs w) ∨
   uploadDir (fs w') = delete (finalName random originalFilename) (uploadDir (fs w))) ∧
  (missing uploadId totalChunks (chunksDir (fs w)) = [] →
   uploadDir (fs w') !! finalName random originalFilename = None).
Proof.
  intros _ _. simpl. unfold combineAndProcessChunks, combineAndProcessTry. simpl.
  destruct (combineChunks_outcome uploadId totalChunks (chunksDir (fs w))
              (mkStream [] false)) as [[Hm (ws & ->)]|[Hm (e & ws & ->)]].
  - set (fs1 := writeProcessing (tempName uploadId) (written ws)
                  (writeProcessing (tempName uploadId) [] (fs w))).
    pose proof (processImage_dirs sharp (tempName uploadId)
                  (random +:+ "-" +:+ originalFilename) options fs1)
      as (Hc & Hp & Hu). simpl in Hc, Hp, Hu.
    assert (∀ fs2 reg,
              reg !! uploadId = Some
                (cleanupService.mkEntry now
                   (filesOf uploadId totalChunks
                      (Some (random +:+ "-" +:+ originalFilename))) false) →
              chunksDir fs2 = chunksDir fs1 →
              processingDir fs2 = processingDir fs1 →
              delete (random +:+ "-" +:+ originalFilename) (uploadDir fs2)
                = delete (random +:+ "-" +:+ originalFilename) (uploadDir fs1) →
              fs (cleanup uploadId false (mkWorld fs2 reg)) =
                mkFS (filter (λ kv : string * bytes,
                        cleanupService.isChunkOf uploadId kv.1 = false)
                        (chunksDir (fs w)))
                     (delete (tempName uploadId) (processingDir (fs w)))
                     (delete (finalName random originalFilename) (uploadDir (fs w))))
      as Hfail.
    { intros fs2 reg Hreg H1 H2 H3.
      erewrite cleanup_false_files;
        [|exact Hreg|reflexivity|apply (finalName_not_empty random originalFilename)].
      rewrite H1, H2. unfold finalName. rewrite H3. unfold fs1. simpl.
      by rewrite !delete_insert_eq. }
    destruct (imageProcessor.processImage _ _ _ _ _) as [fs2 [result|e]];
      simpl in Hc, Hp, Hu.
    + destruct (imageProcessor.success result); cbn [negb]; cbv zeta.
      * cbn [fst]. rewrite (cleanup_eq uploadId true).
        erewrite (cleanup_false_files uploadId _ _ _
                    (random +:+ "-" +:+ originalFilename));
          [| unfold cleanupService.cleanupUpload, cleanupService.registerForCleanup;
             simpl; rewrite lookup_alter_eq, lookup_insert_eq; simpl; reflexivity
           | reflexivity | apply (finalName_not_empty random originalFilename) ].
        unfold cleanupService.cleanupUpload, cleanupService.finalToDelete,
          cleanupService.registerForCleanup. simpl.
        rewrite lookup_insert_eq. simpl.
        pose proof (finalName_not_empty random originalFilename) as Hfn.
        unfold finalName in *. rewrite Hfn, Hc, Hp, Hu. clear Hfn.
        split; [|split; [|split]].
        -- apply map_eq. intros name. apply option_eq. intros data.
           rewrite !map_lookup_filter_Some. tauto.
        -- apply map_eq. intros name.
           destruct (decide (name = tempName uploadId)) as [->|Hne].
           ++ by rewrite !lookup_delete_eq.
           ++ by rewrite !lookup_delete_ne, !lookup_insert_ne.
        -- by right.
        -- intros _. apply lookup_delete_eq.
      * cbn [fst]. unfold cleanupService.registerForCleanup.
        rewrite (Hfail fs2 _ (lookup_insert_eq _ _ _) Hc Hp Hu). simpl.
        split; [done|]. split; [done|]. split; [by right|].
        intros _. apply lookup_delete_eq.
    + cbn [fst]. unfold cleanupService.registerForCleanup.
      rewrite (Hfail fs2 _ (lookup_insert_eq _ _ _) Hc Hp Hu). simpl.
      split; [done|]. split; [done|]. split; [by right|].
      intros _. apply lookup_delete_eq.
  - unfold cleanup, cleanupService.cleanupUpload, cleanupService.finalToDelete,
      cleanupService.registerForCleanup.
    simpl. rewrite lookup_insert_eq. simpl. rewrite !delete_insert_eq.
    split; [done|]. split; [done|]. split; [by left|]. done.
Qed.

Lemma pipeline_leaves_no_files_witness :
  let w' := (combineAndProcessChunks example.sharp 102 "cafe" "u1" 2 "photo.jpg"
               cases.preserve cases.bothChunks).1 in
  chunksDir (fs w') =
    filter (λ kv : string * bytes, cleanupService.isChunkOf "u1" kv.1 = false)
      (chunksDir (fs cases.bothChunks)) ∧
  processingDir (fs w') = delete (tempName "u1") (processingDir (fs cases.bothChunks)) ∧
  (uploadDir (fs w') = uploadDir (fs cases.bothChunks) ∨
   uploadDir (fs w') = delete (finalName "cafe" "photo.jpg")
                         (uploadDir (fs cases.bothChunks))) ∧
  (missing "u1" 2 (chunksDir (fs cases.bothChunks)) = [] →
   uploadDir (fs w') !! finalName "cafe" "photo.jpg" = None).
Proof.
  apply (pipeline_leaves_no_files example.sharp 102 "cafe" "u1" 2 "photo.jpg"
           cases.preserve cases.bothChunks).
  - vm_compute. reflexivity.
  - vm_compute. reflexivity.
Defined.



End PipelineFiles.

(** ** Submissions, sessions and the routes *)

Section Sessions.

Import chunkProcessor uploadTracker uploadController submissions.

(** X10. Submitting again an index that the session has already recorded
    leaves the received set, and so the count of received chunks, as it
    was. *)
Theorem duplicate_chunk_keeps_set sharp now random err file body st t :
  chunksTracker st !! uploadId body = Some t →
  parseInt (chunkNumber body) ∈ chunks t →
  ∃ t', chunksTracker (handleChunkUpload sharp now random err file body st).1
          !! uploadId body = Some t' ∧
        chunks t' = chunks t.
Proof.
  intros Ht Hin.
  destruct (handleChunkUpload_keeps_session sharp now random err file body st
              (uploadId body)) as [t' Ht']; [by eexists|].
  exists t'. split; [done|].
  apply handleChunkUpload_entry in Ht'
    as [(t0 & Ht0 & Hc & _)|(_ & t0 & Ht0 & Hc & _)];
    rewrite Ht in Ht0; simplify_eq; [done|].
  rewrite Hc. apply set_eq. intros c. rewrite elem_of_union, elem_of_singleton.
  split; [intros [->|?]; done | by right].
Qed.

Lemma duplicate_chunk_keeps_set_witness :
  ∃ t', chunksTracker
          (handleChunkUpload example.sharp 105 "cafe" None true
             (example.chunk "0" "2") example.oneChunk).1
          !! uploadId (example.chunk "0" "2") = Some t' ∧
        chunks t' = chunks (mkTracking {[Some 0]} (Some 2) "photo.jpg" 100
                              INITIALIZING None (Some 101) (Some 1%nat)).
Proof.
  apply (duplicate_chunk_keeps_set example.sharp 105 "cafe" None true
           (example.chunk "0" "2") example.oneChunk).
  - vm_compute. reflexivity.
  - vm_compute. reflexivity.
Defined.

(** X11. A submission for one upload leaves the session and the gate entry
    of every other upload as they are. *)
Theorem submission_spares_other_sessions sharp now random err file body st v :
  v ≠ uploadId body →
  chunksTracker (handleChunkUpload sharp now random err file body st).1 !! v
    = chunksTracker st !! v ∧
  processingLock (handleChunkUpload sharp now random err file body st).1 !! v
    = processingLock st !! v.
Proof.
  intros Hv. unfold handleChunkUpload.
  destruct (handleChunkUploadBegin now err file body st) as [st1 s] eqn:Hb.
  destruct (begin_cases _ _ _ _ _ _ _ Hb) as [[-> [e ->]]|(-> & -> & [t Ht])];
    [done|].
  rewrite (begin_registered _ _ _ _ Ht) in Hb.
  destruct (isComplete _); [destruct (held _ _)|]; simplify_eq; simpl.
  - by rewrite lookup_insert_ne.
  - destruct (combineAndProcessChunks _ _ _ _ _ _ _ _) as [w [result|e]]; simpl.
    + by rewrite !lookup_delete_ne, !lookup_insert_ne.
    + unfold markUploadAsFailed. simpl.
      by rewrite !lookup_alter_ne, lookup_delete_ne, !lookup_insert_ne.
  - by rewrite lookup_insert_ne.
Qed.

Lemma submission_spares_other_sessions_witness :
  chunksTracker
    (handleChunkUpload example.sharp 105 "cafe" None true
       (example.chunk "1" "2") example.oneChunk).1 !! "u2"
    = chunksTracker example.oneChunk !! "u2" ∧
  processingLock
    (handleChunkUpload example.sharp 105 "cafe" None true
       (example.chunk "1" "2") example.oneChunk).1 !! "u2"
    = processingLock example.oneChunk !! "u2".
Proof.
  apply (submission_spares_other_sessions example.sharp 105 "cafe" None true
           (example.chunk "1" "2") example.oneChunk "u2").
  discriminate.
Defined.

(** X12. A session that [initializeUpload] has just created has received 0
    chunks of a total of 0, so, with its gate free, [getUploadStatus]
    reports it as [completed]. *)
Theorem new_session_reports_completed random now st :
  held (processingLock st) random = false →
  getUploadStatus random (initializeUpload random now st).1
    = View COMPLETED 0 (Some 0) "" now "inactive".
Proof.
  intros Hfree. unfold getUploadStatus, initializeUpload. simpl.
  rewrite lookup_insert_eq, Hfree. reflexivity.
Qed.

Lemma new_session_reports_completed_witness :
  getUploadStatus "u7" (initializeUpload "u7" 200 example.oneChunk).1
    = View COMPLETED 0 (Some 0) "" 200 "inactive".
Proof.
  apply (new_session_reports_completed "u7" 200 example.oneChunk).
  vm_compute. reflexivity.
Defined.

(** X13. What [markUploadAsFailed] records is not what [getUploadStatus]
    reports: marking an upload as failed changes the answer for no
    upload. *)
Theorem failure_mark_is_not_reported uploadId err v st :
  getUploadStatus v (markUploadAsFailed uploadId err st) = getUploadStatus v st.
Proof.
  unfold getUploadStatus, markUploadAsFailed. simpl.
  destruct (decide (uploadId = v)) as [->|Hne].
  - rewrite lookup_alter_eq. by destruct (chunksTracker st !! v).
  - by rewrite lookup_alter_ne.
Qed.







(** X17. No sequence of requests on the chunk route removes a session from
    the registry. *)
Theorem session_survives_submissions sharp rs st u :
  is_Some (chunksTracker st !! u) →
  is_Some (chunksTracker (receiveChunks sharp st rs) !! u).
Proof.
  revert st. induction rs as [|r rs IH]; intros st Hu; [done|].
  simpl. apply IH. unfold receiveChunk, uploadChunk.
  destruct (multerConfig.storage _ _ _ _) as [fs' [[]|e]];
    by apply handleChunkUpload_keeps_session.
Qed.

Lemma session_survives_submissions_witness :
  is_Some (chunksTracker
             (receiveChunks example.sharp example.created example.inRangeRequests)
             !! "u1").
Proof.
  apply (session_survives_submissions example.sharp example.inRangeRequests
           example.created "u1").
  vm_compute. by eexists.
Defined.



End Sessions.

(** ** The synchronisation service *)

Section Sync.

Import s3Service observe.

Lemma stripNonPrintable_printable s : allPrintable (stripNonPrintable s) = true.
Proof.
  induction s as [|c s IH]; [done|]. simpl.
  destruct (printable c) eqn:Hc; [|done]. simpl. by rewrite Hc.
Qed.


Lemma sanitizeMetadata_values metadata :
  Forall (λ kv : string * string, allPrintable kv.2 = true)
    (sanitizeMetadata metadata).
Proof.
  unfold sanitizeMetadata. apply Forall_fmap, Forall_true. intros [k v].
  apply stripNonPrintable_printable.
Qed.

Lemma removeIfSet_sublist key o : removeIfSet key o ⊆ o.
Proof.
  unfold removeIfSet. destruct (truthy _); [|done].
  intros kv Hkv. by apply list_elem_of_filter in Hkv as [_ ?].
Qed.

Lemma get_filter_eq key o :
  get key (filter (λ kv : string * string, kv.1 ≠ key) o) = None.
Proof.
  induction o as [|[k v] o IH]; [done|].
  rewrite filter_cons. simpl. case_decide as Hk; [|done]. simpl.
  destruct (String.eqb_spec key k) as [->|_]; [done|]. done.
Qed.

Lemma get_filter_ne key key' o :
  key ≠ key' →
  get key (filter (λ kv : string * string, kv.1 ≠ key') o) = get key o.
Proof.
  intros Hne. induction o as [|[k v] o IH]; [done|].
  rewrite filter_cons. simpl. case_decide as Hk; simpl.
  - by rewrite IH.
  - destruct (String.eqb_spec key k) as [->|_]; [|done]. simpl in Hk.
    by destruct Hk.
Qed.

Lemma removeIfSet_falsy key o : truthy (get key (removeIfSet key o)) = false.
Proof.
  unfold removeIfSet. destruct (truthy (get key o)) eqn:Ht; [|done].
  by rewrite get_filter_eq.
Qed.

Lemma removeIfSet_other key key' o :
  key ≠ key' → get key (removeIfSet key' o) = get key o.
Proof.
  intros Hne. unfold removeIfSet. destruct (truthy _); [|done].
  by apply get_filter_ne.
Qed.


(** X20. A transfer that fails, because the file is missing or because the
    storage client throws, leaves the service as it was: nothing is
    stored, and the local file is not deleted even when
    [deleteAfterUpload] is set. *)
Theorem failed_transfer_changes_nothing send t svc e :
  (uploadToS3 send t svc).2 = Throw e →
  (uploadToS3 send t svc).1 = svc.
Proof.
  unfold uploadToS3. destruct (files svc !! filePath t); [|done].
  by destruct (send _).
Qed.

Lemma failed_transfer_changes_nothing_witness :
  (uploadToS3 cases.sendFails cases.withDelete example.service0).1
    = example.service0.
Proof.
  apply (failed_transfer_changes_nothing cases.sendFails cases.withDelete
           example.service0 (Error "socket hang up")).
  vm_compute. reflexivity.
Defined.

(** X21. When a transfer succeeds, the storage client accepted one command
    whose key is the task's key and whose body is the content of the
    file; its content type is not empty; every metadata value sent is
    printable ASCII and the metadata holds no set [contentType] or
    [deleteAfterUpload]; the local file is gone exactly when the task's
    [deleteAfterUpload] is set, and no other file is touched. *)
Theorem successful_transfer_sends_file send t svc :
  (uploadToS3 send t svc).2 = Return tt →
  ∃ fileContent command,
    files svc !! filePath t = Some fileContent ∧
    send command = Return tt ∧
    Key command = s3Key t ∧ Body command = fileContent ∧
    ContentType command ≠ "" ∧
    Forall (λ kv : string * string, allPrintable kv.2 = true) (Metadata command) ∧
    truthy (get "contentType" (Metadata command)) = false ∧
    truthy (get "deleteAfterUpload" (Metadata command)) = false ∧
    files (uploadToS3 send t svc).1 !! filePath t
      = (if truthy (get "deleteAfterUpload" (metadata t)) then None
         else Some fileContent) ∧
    ∀ other, other ≠ filePath t →
      files (uploadToS3 send t svc).1 !! other = files svc !! other.
Proof.
  unfold uploadToS3.
  destruct (files svc !! filePath t) as [fileContent|] eqn:Hfile; [|done].
  match goal with |- context [send ?c] => set (command := c) end.
  destruct (send command) as [[]|e] eqn:Hsend; [|done]. intros _.
  exists fileContent, command. split; [done|]. split; [done|].
  split; [done|]. split; [done|]. split.
  { subst command. simpl. unfold truthy.
    destruct (get "contentType" (metadata t)) as [s|]; [|done]. simpl.
    destruct (String.eqb_spec s "") as [->|Hs]; done. }
  split.
  { subst command. simpl.
    eapply Forall_impl with (P := λ kv, kv ∈ sanitizeMetadata (metadata t)).
    - apply Forall_forall. intros kv Hkv.
      by apply removeIfSet_sublist, removeIfSet_sublist in Hkv.
    - intros kv Hkv.
      by apply (proj1 (Forall_forall _ _) (sanitizeMetadata_values (metadata t))). }
  split.
  { subst command. simpl. rewrite removeIfSet_other by done.
    apply removeIfSet_falsy. }
  split; [subst command; simpl; apply removeIfSet_falsy|].
  simpl. destruct (truthy (get "deleteAfterUpload" (metadata t))).
  - split; [apply lookup_delete_eq|]. intros other Hother.
    by apply lookup_delete_ne.
  - done.
Qed.

Lemma successful_transfer_sends_file_witness :
  ∃ fileContent command,
    files example.service0 !! filePath cases.withDelete = Some fileContent ∧
    example.sendOk command = Return tt ∧
    Key command = s3Key cases.withDelete ∧ Body command = fileContent ∧
    ContentType command ≠ "" ∧
    Forall (λ kv : string * string, allPrintable kv.2 = true) (Metadata command) ∧
    truthy (get "contentType" (Metadata command)) = false ∧
    truthy (get "deleteAfterUpload" (Metadata command)) = false ∧
    files (uploadToS3 example.sendOk cases.withDelete example.service0).1
      !! filePath cases.withDelete
      = (if truthy (get "deleteAfterUpload" (metadata cases.withDelete)) then None
         else Some fileContent) ∧
    ∀ other, other ≠ filePath cases.withDelete →
      files (uploadToS3 example.sendOk cases.withDelete example.service0).1 !! other
        = files example.service0 !! other.
Proof.
  apply (successful_transfer_sends_file example.sendOk cases.withDelete
           example.service0).
  vm_compute. reflexivity.
Defined.

(** X22. [updateSyncStatus] never creates an entry: for an unknown task it
    does nothing. For a known task it sets status, error and completion
    time and keeps the start time and the file; what [getSyncStatus]
    answers for any other task is unchanged. *)
Theorem updateSyncStatus_effect now taskId s err svc :
  (syncRegistry svc !! taskId = None →
   updateSyncStatus now taskId s err svc = svc) ∧
  (∀ info n,
     getSyncStatus taskId svc = Return (info, n) →
     getSyncStatus taskId (updateSyncStatus now taskId s err svc)
       = Return (mkSyncInfo s (startTime info) (fileInfo info) err (Some now), n)) ∧
  (∀ other, other ≠ taskId →
     getSyncStatus other (updateSyncStatus now taskId s err svc)
       = getSyncStatus other svc).
Proof.
  split; [|split].
  - intros Hnone. unfold updateSyncStatus. destruct svc as [reg q p f b].
    simpl in *. f_equal. apply map_eq. intros k.
    destruct (decide (k = taskId)) as [->|Hk].
    + by rewrite lookup_alter_eq, Hnone.
    + by rewrite lookup_alter_ne.
  - intros info n. unfold getSyncStatus, updateSyncStatus. simpl.
    rewrite lookup_alter_eq.
    destruct (syncRegistry svc !! taskId); [|done]. simpl.
    intros H. by simplify_eq.
  - intros other Hother. unfold getSyncStatus, updateSyncStatus. simpl.
    by rewrite lookup_alter_ne.
Qed.

(** X23. Submitting a file under an identifier that is not yet in the
    registry raises the number of pending tasks that [getQueueStats]
    reports by one and leaves its number of failed tasks. *)
Theorem submission_counts now random f svc :
  syncRegistry svc !! newTaskId now random = None →
  let before := queueStats.getQueueStats svc in
  let after := queueStats.getQueueStats (queueForSync now random f svc).1 in
  queueStats.pendingTasks after = S (queueStats.pendingTasks before) ∧
  queueStats.failedTasks after = queueStats.failedTasks before.
Proof.
  intros Hfresh before after. unfold before, after, queueStats.getQueueStats.
  simpl. unfold queueStats.count. simpl. split.
  - rewrite map_filter_insert_True by done.
    apply map_size_insert_None, map_lookup_filter_None. by left.
  - rewrite map_filter_insert_False by done.
    by rewrite delete_id.
Qed.

Lemma submission_counts_witness :
  queueStats.pendingTasks (queueStats.getQueueStats example.submitted.1) = 1%nat ∧
  queueStats.failedTasks (queueStats.getQueueStats example.submitted.1) = 0%nat.
Proof.
  apply (submission_counts 7 "abc" example.file1 example.service0).
  vm_compute. reflexivity.
Defined.

End Sync.

(** ** The periodic sweeps *)

Section Sweeps.

Import cleanupService sweeps.

Lemma expired_false now age f : expired now age f = false ↔ now - mtime f ≤ age.
Proof.
  unfold expired. rewrite bool_decide_eq_false. lia.
Qed.

Lemma isRegistered_true cleanupRegistry file :
  isRegistered cleanupRegistry file = true ↔
  ∃ u e, cleanupRegistry !! u = Some e ∧
         final (files e) = Some file ∧ cleaned e = false.
Proof.
  unfold isRegistered. rewrite bool_decide_eq_true. unfold map_Exists.
  split; intros (u & e & H); exists u, e; tauto.
Qed.

Lemma cleanOldFiles_lookup now age directory name f :
  cleanOldFiles now age directory !! name = Some f ↔
  directory !! name = Some f ∧ now - mtime f ≤ age.
Proof.
  unfold cleanOldFiles. rewrite map_lookup_filter_Some. simpl.
  by rewrite expired_false.
Qed.

Lemma cleanOrphanedUploads_lookup now age cleanupRegistry directory name f :
  cleanOrphanedUploads now age cleanupRegistry directory !! name = Some f ↔
  directory !! name = Some f ∧
  (now - mtime f ≤ age ∨ isRegistered cleanupRegistry name = true).
Proof.
  unfold cleanOrphanedUploads. rewrite map_lookup_filter_Some. simpl.
  rewrite andb_false_iff, negb_false_iff, expired_false. tauto.
Qed.

(** X24. A periodic sweep deletes only old files. In the chunk and the
    processing directory a file stays exactly when it is at most 24 hours
    old at the time of its sweep; in the upload directory a file stays
    exactly when it is at most 24 hours old or some ledger entry that is
    not yet cleaned names it as its final file. *)
Theorem periodic_cleanup_keeps now1 now2 now3 cleanupRegistry d name f :
  (sweeps.chunks (performPeriodicCleanup now1 now2 now3 cleanupRegistry d) !! name
     = Some f ↔
   sweeps.chunks d !! name = Some f ∧ now1 - mtime f ≤ 86400000) ∧
  (processing (performPeriodicCleanup now1 now2 now3 cleanupRegistry d) !! name
     = Some f ↔
   processing d !! name = Some f ∧ now2 - mtime f ≤ 86400000) ∧
  (uploads (performPeriodicCleanup now1 now2 now3 cleanupRegistry d) !! name
     = Some f ↔
   uploads d !! name = Some f ∧
   (now3 - mtime f ≤ 86400000 ∨
    ∃ u e, cleanupRegistry !! u = Some e ∧
           final (files e) = Some name ∧ cleaned e = false)).
Proof.
  unfold performPeriodicCleanup. simpl.
  rewrite !cleanOldFiles_lookup, cleanOrphanedUploads_lookup, isRegistered_true.
  done.
Qed.

(** X25. Registering an upload protects its final file: however old the
    file is, the sweep that follows leaves it in the upload directory. *)
Theorem registered_final_survives now1 now2 now3 now uploadId t c name
    cleanupRegistry d :
  uploads
    (performPeriodicCleanup now1 now2 now3
       (registerForCleanup now uploadId (mkFiles t c (Some name)) cleanupRegistry)
       d) !! name
  = uploads d !! name.
Proof.
  unfold performPeriodicCleanup. simpl.
  destruct (uploads d !! name) as [f|] eqn:Hf.
  - apply cleanOrphanedUploads_lookup. split; [done|]. right.
    apply isRegistered_true. eexists uploadId, _. split.
    + unfold registerForCleanup. apply lookup_insert_eq.
    + done.
  - unfold cleanOrphanedUploads. apply map_lookup_filter_None. by left.
Qed.

(** X26. Cleaning up an upload ends that protection, also after a
    success: once [cleanupUpload] has run for the upload, a final file
    that no other upload's uncleaned entry names is deleted by the first
    sweep that finds it more than 24 hours old. *)
Theorem cleaned_final_is_swept now1 now2 now3 uploadId success fs
    cleanupRegistry d name f :
  (∀ v e, v ≠ uploadId → cleanupRegistry !! v = Some e →
          final (files e) = Some name → cleaned e = true) →
  uploads d !! name = Some f →
  86400000 < now3 - mtime f →
  uploads
    (performPeriodicCleanup now1 now2 now3
       (cleanupUpload uploadId success fs cleanupRegistry).2 d) !! name
  = None.
Proof.
  intros Hothers Hf Hold. unfold performPeriodicCleanup. simpl.
  destruct (cleanOrphanedUploads _ _ _ _ !! name) as [g|] eqn:Hg; [|done].
  apply cleanOrphanedUploads_lookup in Hg as [Hg [Hyoung|Hreg]].
  - rewrite Hf in Hg. simplify_eq. unfold maxAge in Hyoung. lia.
  - apply isRegistered_true in Hreg as (v & e & He & Hfinal & Hclean).
    destruct (decide (v = uploadId)) as [->|Hv].
    + rewrite lookup_alter_eq in He.
      destruct (cleanupRegistry !! uploadId) as [e0|]; [|done].
      simpl in He. injection He as <-. done.
    + rewrite lookup_alter_ne in He by done.
      rewrite (Hothers v e Hv He Hfinal) in Hclean. done.
Qed.

Lemma cleaned_final_is_swept_witness :
  uploads
    (performPeriodicCleanup 90000000 90000000 90000000
       (cleanupUpload "aa" true cases.withFinal cases.ledger).2
       cases.directories) !! "cafe-photo.jpg"
  = None.
Proof.
  apply (cleaned_final_is_swept 90000000 90000000 90000000 "aa" true
           cases.withFinal cases.ledger cases.directories "cafe-photo.jpg"
           (mkFile 0 example.b1)).
  - intros v e Hv He. exfalso. apply Hv. unfold cases.ledger in He.
    apply lookup_singleton_Some in He as [Heq _]. by symmetry.
  - vm_compute. reflexivity.
  - vm_compute. reflexivity.
Defined.

(** X27. A later sweep subsumes an earlier one: sweeping a directory that
    was swept at an earlier time gives what sweeping the original
    directory gives. *)
Theorem later_sweep_subsumes_earlier earlier later age directory :
  earlier ≤ later →
  cleanOldFiles later age (cleanOldFiles earlier age directory)
    = cleanOldFiles later age directory.
Proof.
  intros Hle. apply map_eq. intros name. apply option_eq. intros f.
  rewrite !cleanOldFiles_lookup. split; [tauto|].
  intros [Hf Hage]. split; [|done]. split; [done|]. lia.
Qed.

Lemma later_sweep_subsumes_earlier_witness :
  cleanOldFiles 180000000 maxAge
    (cleanOldFiles 90000000 maxAge (sweeps.chunks cases.directories))
  = cleanOldFiles 180000000 maxAge (sweeps.chunks cases.directories).
Proof.
  apply (later_sweep_subsumes_earlier 90000000 180000000 maxAge
           (sweeps.chunks cases.directories)).
  lia.
Defined.

(** X28. The hourly task of the directory manager touches the processing
    directory only, and there it keeps exactly the files that are at most
    one hour old. *)
Theorem hourly_task_keeps now d name f :
  sweeps.chunks (hourlyTask now d) = sweeps.chunks d ∧
  uploads (hourlyTask now d) = uploads d ∧
  (processing (hourlyTask now d) !! name = Some f ↔
   processing d !! name = Some f ∧ now - mtime f ≤ 3600000).
Proof.
  unfold hourlyTask. simpl. split; [done|]. split; [done|].
  by rewrite cleanOldFiles_lookup.
Qed.

End Sweeps.

(** ** The validations of the upload configuration *)

Section Validations.

Import fileValidations observe.

Lemma safeChar_plain c :
  safeChar c = true →
  s3Service.printable c = true ∧ c ≠ "/"%char ∧ c ≠ ascii_of_N 92.
Proof.
  destruct c as [[] [] [] [] [] [] [] []]; vm_compute; intros H;
    try discriminate H; (split; [reflexivity|split; discriminate]).
Qed.

Lemma allSafe_plain s :
  allSafe s = true →
  allPrintable s = true ∧ occurs "/" s = false ∧ occurs (ascii_of_N 92) s = false.
Proof.
  induction s as [|c s IH]; [done|]. cbn [allSafe allPrintable occurs].
  intros [Hc Hs]%andb_true_iff.
  destruct (safeChar_plain c Hc) as (Hp & Hslash & Hback).
  destruct (IH Hs) as (-> & -> & ->). rewrite Hp.
  rewrite !bool_decide_eq_false_2 by done. done.
Qed.

(** X29. A name that [validateFilename] accepts is not empty, has at most
    255 characters, all of them printable, and contains neither a slash
    nor a backslash. *)
Theorem valid_filename_has_no_separator filename :
  validateFilename filename = true →
  filename ≠ "" ∧ (String.length filename ≤ 255)%nat ∧
  allPrintable filename = true ∧
  occurs "/" filename = false ∧ occurs (ascii_of_N 92) filename = false.
Proof.
  unfold validateFilename.
  intros [[Hne Hsafe]%andb_true_iff Hlen%bool_decide_eq_true]%andb_true_iff.
  split.
  { intros ->. done. }
  split; [done|]. by apply allSafe_plain.
Qed.

Lemma valid_filename_has_no_separator_witness :
  "cafe-photo.jpg" ≠ "" ∧ (String.length "cafe-photo.jpg" ≤ 255)%nat ∧
  allPrintable "cafe-photo.jpg" = true ∧
  occurs "/" "cafe-photo.jpg" = false ∧
  occurs (ascii_of_N 92) "cafe-photo.jpg" = false.
Proof.
  apply (valid_filename_has_no_separator "cafe-photo.jpg").
  vm_compute. reflexivity.
Defined.

End Validations.
